(** * Layers: queries, symbol resolution, selection and grid creation

    A shallow embedding of [src/sketch/src/sketch/layers.js].  The host
    application (its document model, the Foundation predicate engine and
    the library registry) is represented by small explicit models; every
    function of [layers.js] is translated statement by statement on top
    of them. *)

From Stdlib Require Import ZArith Lia Bool Floats.
From Stdlib Require Import Strings.String Strings.Ascii.
From stdpp Require Import base list.

(** [array[0]] of a JavaScript array: the first element, [undefined]
    (here [None]) when the array is empty. *)
Definition first {A : Type} (l : list A) : option A := head l.

(* ===================================================================== *)
(** ** Symbol masters: [findSymbolMasterWithName], [findSymbolMasterWithId] *)
(* ===================================================================== *)

Module Symbols.

(** A symbol master as the JavaScript API wraps it: [name], [id] and the
    native object behind it ([sketchObject], here its handle). *)
Record SymbolMaster : Type := {
  symbolName : string;
  symbolId : string;
  sketchObject : nat
}.

(** An importable reference of a library; [refMaster] is the master that
    [reference.import()] hands back. *)
Record SymbolReference : Type := {
  refName : string;
  refId : string;
  refMaster : SymbolMaster
}.

Record Library : Type := {
  valid : bool;
  references : list SymbolReference
}.

(** What the resolver reads: [getSymbols()] of the selected document and
    [sketch.getLibraries()]. *)
Record Host : Type := {
  documentSymbols : list SymbolMaster;
  libraries : list Library
}.

(** The calls the resolver makes on libraries, in the order it makes
    them: [getImportableSymbolReferencesForDocument] on library [i], and
    [import()] of a reference of library [i]. *)
Inductive Event : Type :=
  | Consulted (i : nat)
  | Imported (i : nat) (r : SymbolReference).

Definition eventLibrary (e : Event) : nat :=
  match e with
  | Consulted i => i
  | Imported i _ => i
  end.

(** The value a resolver call returns: a bare [return] gives
    [undefined], the last line gives [null] or the native object. *)
Inductive jsresult : Type :=
  | Undefined
  | Null
  | Object (o : nat).

Section Resolver.

(** The two entry points differ only in the field they compare:
    [symbol.name === name] and [reference.name === name], or the same
    on [id]. *)
Variable matchesSymbol : SymbolMaster -> bool.
Variable matchesReference : SymbolReference -> bool.

(** The loop [for (let i = 0; i < libraries.length; ++i)], started at
    index [i] on the libraries from [i] on.  [symbolMaster] is the
    loop-carried variable.  The outcome is [None] when the loop leaves
    the function through the bare [return], and [Some symbolMaster]
    when it runs to its end. *)
Fixpoint librariesLoop (i : nat) (libs : list Library)
    (symbolMaster : option SymbolMaster) (log : list Event)
    : option (option SymbolMaster) * list Event :=
  match libs with
  | [] => (Some symbolMaster, log)
  | library :: rest =>
      if negb (valid library) then (None, log)
      else
        let log := log ++ [Consulted i] in
        match first (filter (fun r => matchesReference r = true) (references library)) with
        | Some symbolReference =>
            librariesLoop (S i) rest (Some (refMaster symbolReference))
              (log ++ [Imported i symbolReference])
        | None => librariesLoop (S i) rest symbolMaster log
        end
  end.

Definition findSymbolMaster (h : Host) : jsresult * list Event :=
  match first (filter (fun s => matchesSymbol s = true) (documentSymbols h)) with
  | Some symbolMaster => (Object (sketchObject symbolMaster), [])
  | None =>
      match librariesLoop 0 (libraries h) None [] with
      | (None, log) => (Undefined, log)
      | (Some (Some symbolMaster), log) => (Object (sketchObject symbolMaster), log)
      | (Some None, log) => (Null, log)
      end
  end.

(** *** What the specification says, for comparison *)

(** The first library, counted from [i], that is valid and has a
    matching reference, with its first matching reference. *)
Fixpoint firstMatch (i : nat) (libs : list Library) : option (nat * SymbolReference) :=
  match libs with
  | [] => None
  | library :: rest =>
      match (if valid library
             then first (filter (fun r => matchesReference r = true) (references library))
             else None) with
      | Some r => Some (i, r)
      | None => firstMatch (S i) rest
      end
  end.

(** "Resolution stops at the first library producing a match; later
    libraries are not consulted once a match is imported." *)
Definition stopsAtFirstMatch (h : Host) (out : jsresult * list Event) : Prop :=
  match firstMatch 0 (libraries h) with
  | Some (i, r) =>
      out.1 = Object (sketchObject (refMaster r)) /\
      forall e, In e out.2 -> eventLibrary e <= i
  | None => True
  end.

(** The master of the first matching reference of the last library
    that has one; [acc] is the answer when no library has. *)
Fixpoint lastMatch (libs : list Library) (acc : option SymbolMaster)
    : option SymbolMaster :=
  match libs with
  | [] => acc
  | library :: rest =>
      match first (filter (fun r => matchesReference r = true) (references library)) with
      | Some r => lastMatch rest (Some (refMaster r))
      | None => lastMatch rest acc
      end
  end.

(** The calls a full scan makes: every library is consulted, and the
    first matching reference of each library that has one is imported. *)
Fixpoint fullScan (i : nat) (libs : list Library) : list Event :=
  match libs with
  | [] => []
  | library :: rest =>
      Consulted i ::
      match first (filter (fun r => matchesReference r = true) (references library)) with
      | Some r => Imported i r :: fullScan (S i) rest
      | None => fullScan (S i) rest
      end
  end.

End Resolver.

(** [findSymbolMasterWithName(name)] *)
Definition findSymbolMasterWithName (name : string) : Host -> jsresult * list Event :=
  findSymbolMaster (fun symbol => String.eqb (symbolName symbol) name)
                   (fun reference => String.eqb (refName reference) name).

(** [findSymbolMasterWithId(id)] *)
Definition findSymbolMasterWithId (id : string) : Host -> jsresult * list Event :=
  findSymbolMaster (fun symbol => String.eqb (symbolId symbol) id)
                   (fun reference => String.eqb (refId reference) id).

(** No symbol master of the document satisfies the criterion. *)
Definition noLocalMatch (matchesSymbol : SymbolMaster -> bool) (h : Host) : Prop :=
  forall s, In s (documentSymbols h) -> matchesSymbol s = false.

(** Concrete libraries used in the examples below. *)
Definition buttonA : SymbolMaster :=
  {| symbolName := "Button"; symbolId := "B-1"; sketchObject := 1 |}.
Definition buttonB : SymbolMaster :=
  {| symbolName := "Button"; symbolId := "B-1"; sketchObject := 2 |}.
Definition refA : SymbolReference :=
  {| refName := "Button"; refId := "B-1"; refMaster := buttonA |}.
Definition refB : SymbolReference :=
  {| refName := "Button"; refId := "B-1"; refMaster := buttonB |}.

Definition twoValidLibraries : Host :=
  {| documentSymbols := [];
     libraries := [ {| valid := true; references := [refA] |};
                    {| valid := true; references := [refB] |} ] |}.

Definition invalidThenValid : Host :=
  {| documentSymbols := [];
     libraries := [ {| valid := false; references := [] |};
                    {| valid := true; references := [refB] |} ] |}.

Definition localAndLibrary : Host :=
  {| documentSymbols := [buttonA];
     libraries := [ {| valid := false; references := [] |};
                    {| valid := true; references := [refB] |} ] |}.

Definition validThenInvalid : Host :=
  {| documentSymbols := [];
     libraries := [ {| valid := true; references := [refA] |};
                    {| valid := false; references := [] |};
                    {| valid := true; references := [refB] |} ] |}.

Definition buttonC : SymbolMaster :=
  {| symbolName := "Button"; symbolId := "B-2"; sketchObject := 2 |}.
Definition refC : SymbolReference :=
  {| refName := "Button"; refId := "B-2"; refMaster := buttonC |}.

Definition distinctIds : Host :=
  {| documentSymbols := [];
     libraries := [ {| valid := true; references := [refA] |};
                    {| valid := true; references := [refA; refC] |} ] |}.

End Symbols.

(* ===================================================================== *)
(** ** Layer queries: [findLayersInLayer] and its variants *)
(* ===================================================================== *)

Module Query.

Definition PAGE : string := "MSPage".
Definition ARTBOARD : string := "MSArtboardGroup".
Definition GROUP : string := "MSLayerGroup".
Definition TEXT : string := "MSTextLayer".
Definition SHAPE : string := "MSShapeGroup".
Definition BITMAP : string := "MSBitmapLayer".
Definition SYMBOL : string := "MSSymbolInstance".
Definition SYMBOL_MASTER : string := "MSSymbolMaster".
Definition ANY : option string := None.

(** A native layer as the predicate sees it: the object itself
    ([objectID] stands for its identity), its [name] (which may be
    [NULL]) and its [className]. *)
Record MSLayer : Type := {
  objectID : nat;
  name : option string;
  className : string
}.

Definition sameObject (a b : MSLayer) : bool := Nat.eqb (objectID a) (objectID b).

(** The root layer of a query, through the two enumerations the code
    asks it for: [layers()] and [children()].  Both are taken as the
    host gives them. *)
Record RootLayer : Type := {
  layers : list MSLayer;
  children : list MSLayer
}.

(** Truthiness of a string-or-absent JavaScript argument: [undefined],
    [null] and the empty string are falsy. *)
Definition truthy (s : option string) : bool :=
  match s with
  | Some s => negb (String.eqb s "")
  | None => false
  end.

(** *** The predicate engine *)

(** The [LIKE] operator of the predicate language: [*] matches any run
    of characters, [?] exactly one, every other character itself. *)
Fixpoint like (pattern s : string) : bool :=
  match pattern with
  | EmptyString => match s with EmptyString => true | String _ _ => false end
  | String c p =>
      if Ascii.eqb c "*" then
        (fix star (t : string) : bool :=
           like p t || match t with EmptyString => false | String _ t' => star t' end) s
      else if Ascii.eqb c "?" then
        match s with EmptyString => false | String _ s' => like p s' end
      else
        match s with EmptyString => false | String d s' => Ascii.eqb c d && like p s' end
  end.

(** An element of the argument array. *)
Inductive Arg : Type :=
  | ArgString (s : string)
  | ArgLayers (ls : list MSLayer).

(** The format rules the code pushes; the ones with a [%@] take the next
    unused element of the argument array when the predicate is built. *)
Inductive Rule : Type :=
  | NameNotNull          (* (name != NULL) *)
  | NameEquals           (* (name == %@) *)
  | NameLike             (* (name like %@) *)
  | ClassIsShape         (* (className == "MSRectangleShape" OR ... OR className == "MSShapeGroup") *)
  | ClassEquals          (* (className == %@) *)
  | ClassIsDefault       (* (className == "MSLayerGroup" OR ... OR className == "MSPolygonShape") *)
  | NotSelfIn.           (* NOT (SELF IN %@) *)

Definition shapeClasses : list string :=
  ["MSRectangleShape"; "MSTriangleShape"; "MSOvalShape"; "MSStarShape";
   "MSPolygonShape"; "MSShapeGroup"]%string.

Definition defaultClasses : list string :=
  ["MSLayerGroup"; "MSShapeGroup"; "MSArtboardGroup"; "MSTextLayer";
   "MSRectangleShape"; "MSTriangleShape"; "MSOvalShape"; "MSStarShape";
   "MSPolygonShape"]%string.

(** A rule with its argument substituted. *)
Inductive Clause : Type :=
  | CNameNotNull
  | CNameEquals (a : Arg)
  | CNameLike (a : Arg)
  | CClassIn (cs : list string)
  | CClassEquals (a : Arg)
  | CNotSelfIn (a : Arg).

(** [NSPredicate.predicateWithFormat_argumentArray]: the rules are joined
    by [AND]; each [%@] is replaced by the next element of the argument
    array, left to right; elements left over are ignored; too few
    elements is an error ([None]). *)
Fixpoint predicateWithFormat_argumentArray (rules : list Rule) (args : list Arg)
    : option (list Clause) :=
  match rules with
  | [] => Some []
  | r :: rules' =>
      let fixed (c : Clause) := cs ← predicateWithFormat_argumentArray rules' args; Some (c :: cs) in
      let taking (c : Arg -> Clause) :=
        match args with
        | [] => None
        | a :: args' => cs ← predicateWithFormat_argumentArray rules' args'; Some (c a :: cs)
        end in
      match r with
      | NameNotNull => fixed CNameNotNull
      | NameEquals => taking CNameEquals
      | NameLike => taking CNameLike
      | ClassIsShape => fixed (CClassIn shapeClasses)
      | ClassEquals => taking CClassEquals
      | ClassIsDefault => fixed (CClassIn defaultClasses)
      | NotSelfIn => taking CNotSelfIn
      end
  end.

Section Evaluation.

(** [SELF IN s] for a layer and a string [s] on the right-hand side is
    not a membership test in a collection.  Foundation raises
    ("value is not a string") in that case; the outcome is kept as a
    parameter: [None] when the test raises, [Some b] when it yields
    [b]. *)
Variable selfInString : MSLayer -> string -> option bool.

(** One clause on one layer; [None] when the evaluation raises. *)
Definition evalClause (c : Clause) (l : MSLayer) : option bool :=
  match c with
  | CNameNotNull => Some (match name l with Some _ => true | None => false end)
  | CNameEquals (ArgString s) =>
      Some (match name l with Some n => String.eqb n s | None => false end)
  | CNameEquals (ArgLayers _) => Some false
  | CNameLike (ArgString p) =>
      Some (match name l with Some n => like p n | None => false end)
  | CNameLike (ArgLayers _) => None
  | CClassIn cs => Some (existsb (String.eqb (className l)) cs)
  | CClassEquals (ArgString s) => Some (String.eqb (className l) s)
  | CClassEquals (ArgLayers _) => Some false
  | CNotSelfIn (ArgLayers ls) => Some (negb (existsb (sameObject l) ls))
  | CNotSelfIn (ArgString s) => negb <$> selfInString l s
  end.

(** The conjunction, left to right, stopping at the first clause that
    is false. *)
Fixpoint evalPredicate (cs : list Clause) (l : MSLayer) : option bool :=
  match cs with
  | [] => Some true
  | c :: cs' =>
      match evalClause c l with
      | None => None
      | Some false => Some false
      | Some true => evalPredicate cs' l
      end
  end.

(** [layers.filteredArrayUsingPredicate(predicate)] *)
Fixpoint filteredArrayUsingPredicate (cs : list Clause) (ls : list MSLayer)
    : option (list MSLayer) :=
  match ls with
  | [] => Some []
  | l :: ls' =>
      b ← evalPredicate cs l;
      rest ← filteredArrayUsingPredicate cs ls';
      Some (if b : bool then l :: rest else rest)
  end.

(** The outcome of a query: the array it returns, or an exception of
    the predicate engine. *)
Inductive QueryResult : Type :=
  | Raised
  | Returned (ls : list MSLayer).

(** The rules and the argument array as [findLayersInLayer] builds
    them, push by push. *)
Definition formatRulesAndArgs (name : option string) (exactMatch : bool)
    (type : option string) (layersToExclude : option (list MSLayer))
    : list Rule * list Arg :=
  let formatRules := [NameNotNull] in
  let args := [] in
  (* name *)
  let '(formatRules, args) :=
    match name with
    | Some n =>
        if truthy name then
          (formatRules ++ [if exactMatch then NameEquals else NameLike],
           args ++ [ArgString n])
        else (formatRules, args)
    | None => (formatRules, args)
    end in
  (* type *)
  let '(formatRules, args) :=
    match type with
    | Some t =>
        if truthy type then
          (formatRules ++ [if String.eqb t SHAPE then ClassIsShape else ClassEquals],
           args ++ [ArgString t])
        else (formatRules ++ [ClassIsDefault], args)
    | None => (formatRules ++ [ClassIsDefault], args)
    end in
  (* layers to exclude *)
  match layersToExclude with
  | Some ex => (formatRules ++ [NotSelfIn], args ++ [ArgLayers ex])
  | None => (formatRules, args)
  end.

Definition findLayersInLayer (name : option string) (exactMatch : bool)
    (type : option string) (rootLayer : RootLayer) (subLayersOnly : bool)
    (layersToExclude : option (list MSLayer)) : QueryResult :=
  let '(formatRules, args) := formatRulesAndArgs name exactMatch type layersToExclude in
  match predicateWithFormat_argumentArray formatRules args with
  | None => Raised
  | Some predicate =>
      let layers := if subLayersOnly then layers rootLayer else children rootLayer in
      match filteredArrayUsingPredicate predicate layers with
      | None => Raised
      | Some queryResult => Returned queryResult
      end
  end.

(** [findLayerInLayer]: the first layer of the result, [undefined]
    ([None]) when it is empty. *)
Definition findLayerInLayer (name : option string) (exactMatch : bool)
    (type : option string) (rootLayer : RootLayer) (subLayersOnly : bool)
    (layersToExclude : option (list MSLayer)) : option (option MSLayer) :=
  match findLayersInLayer name exactMatch type rootLayer subLayersOnly layersToExclude with
  | Raised => None
  | Returned result => Some (first result)
  end.

(** [findLayersInLayers]: the [forEach] over the roots, concatenating. *)
Fixpoint findLayersInLayers_from (acc : list MSLayer) (name : option string)
    (exactMatch : bool) (type : option string) (rootLayers : list RootLayer)
    (subLayersOnly : bool) (layersToExclude : option (list MSLayer)) : QueryResult :=
  match rootLayers with
  | [] => Returned acc
  | rootLayer :: rest =>
      match findLayersInLayer name exactMatch type rootLayer subLayersOnly layersToExclude with
      | Raised => Raised
      | Returned result =>
          findLayersInLayers_from (acc ++ result) name exactMatch type rest
            subLayersOnly layersToExclude
      end
  end.

Definition findLayersInLayers := findLayersInLayers_from [].

Definition findLayerInLayers (name : option string) (exactMatch : bool)
    (type : option string) (rootLayers : list RootLayer) (subLayersOnly : bool)
    (layersToExclude : option (list MSLayer)) : option (option MSLayer) :=
  match findLayersInLayers name exactMatch type rootLayers subLayersOnly layersToExclude with
  | Raised => None
  | Returned result => Some (first result)
  end.

End Evaluation.

(** The behaviour of Foundation for [SELF IN] with a string on the
    right-hand side and a layer on the left: it raises. *)
Definition foundationSelfInString : MSLayer -> string -> option bool := fun _ _ => None.

(** A string [n] occurs in [s]. *)
Definition contains (n s : string) : Prop :=
  exists pre post : string, s = (pre ++ n ++ post)%string.

(** No [*] and no [?] in the string. *)
Fixpoint literal (p : string) : bool :=
  match p with
  | EmptyString => true
  | String c p' => negb (Ascii.eqb c "*") && negb (Ascii.eqb c "?") && literal p'
  end.

(** The kind filter a query ends up with. *)
Definition kindAllows (type : option string) (l : MSLayer) : bool :=
  match type with
  | Some t =>
      if truthy type then
        if String.eqb t SHAPE then existsb (String.eqb (className l)) shapeClasses
        else String.eqb (className l) t
      else existsb (String.eqb (className l)) defaultClasses
  | None => existsb (String.eqb (className l)) defaultClasses
  end.

(** The layer is in the exclusion array, by identity. *)
Definition excluded (layersToExclude : option (list MSLayer)) (l : MSLayer) : bool :=
  match layersToExclude with
  | Some ex => existsb (sameObject l) ex
  | None => false
  end.

(** Everything a query checks on one layer, as one test: the name is
    not [NULL], the name filter, the kind filter and the exclusion. *)
Definition selects (nameArg : option string) (exactMatch : bool) (type : option string)
    (layersToExclude : option (list MSLayer)) (l : MSLayer) : bool :=
  match name l with
  | None => false
  | Some n =>
      (match nameArg with
       | Some a => if truthy nameArg then (if exactMatch then String.eqb n a else like a n) else true
       | None => true
       end)
      && kindAllows type l
      && negb (excluded layersToExclude l)
  end.

(** The generic shape kind together with an exclusion array: the one
    combination in which the argument array and the placeholders of the
    format string do not line up. *)
Definition shapeWithExclusion (type : option string)
    (layersToExclude : option (list MSLayer)) : bool :=
  match type, layersToExclude with
  | Some t, Some _ => String.eqb t SHAPE
  | _, _ => false
  end.

(** "With [exactMatch=false] it returns exactly the layers whose name
    contains N as substring." *)
Definition returnsSubstringMatches (N : string) (candidates : list MSLayer)
    (r : QueryResult) : Prop :=
  exists ls, r = Returned ls /\
    forall l, In l ls <-> (In l candidates /\ exists n, name l = Some n /\ contains N n).

(** Concrete layers used in the examples below. *)
Definition rectL : MSLayer :=
  {| objectID := 1; name := Some "a"%string; className := "MSRectangleShape" |}.
Definition rectM : MSLayer :=
  {| objectID := 2; name := Some "a"%string; className := "MSRectangleShape" |}.
Definition rootLM : RootLayer := {| layers := [rectL; rectM]; children := [rectL; rectM] |}.
Definition textFoobar : MSLayer :=
  {| objectID := 3; name := Some "foobar"%string; className := "MSTextLayer" |}.
Definition rootFoobar : RootLayer := {| layers := [textFoobar]; children := [textFoobar] |}.

End Query.

(* ===================================================================== *)
(** ** The document: selection and [createGrid] *)
(* ===================================================================== *)

Module Doc.

(** *** JavaScript values of the grid options

    A field of [opt] is a number or is missing.  A number is an IEEE
    754 double, as in JavaScript: [float] is the kernel's binary64, with
    its rounding, its two zeros, its infinities and its NaN. *)
Inductive jsval : Type :=
  | JUndefined
  | JNull
  | JNum (f : float).

(** The number a value stands for in a comparison or a sum:
    [undefined] is NaN, [null] is 0. *)
Definition toNumber (v : jsval) : float :=
  match v with
  | JNum f => f
  | JUndefined => nan
  | JNull => 0%float
  end.

(** [!v]: the falsy values are [undefined], [null], both zeros and
    NaN. *)
Definition not_ (v : jsval) : bool :=
  match v with
  | JNum f => (f =? 0)%float || is_nan f
  | JUndefined | JNull => true
  end.

(** [v < 0] *)
Definition ltZero (v : jsval) : bool := (toNumber v <? 0)%float.

(** [v !== 0] *)
Definition notIdenticalZero (v : jsval) : bool :=
  match v with
  | JNum f => negb (f =? 0)%float
  | JUndefined | JNull => true
  end.

(** [i < v] for a loop counter [i]. *)
Definition counterLt (i : float) (v : jsval) : bool := (i <? toNumber v)%float.

Record Options : Type := {
  rowsCount : jsval;
  rowsMargin : jsval;
  columnsCount : jsval;
  columnsMargin : jsval
}.

(** *** The document model of the host *)

Record Frame : Type := { x : float; y : float; width : float; height : float }.

(** A layer object.  [parentGroup] is the group the layer sits in, if
    any; a layer taken out of the tree has none. *)
Record Layer : Type := {
  name : string;
  className : string;
  frame : Frame;
  parentGroup : option nat
}.

(** Layers are referred to by handle: the index of the object in
    [store].  [selection] is [selectedLayers()] in the host's own order,
    [messages] what [showMessage] has displayed. *)
Record Document : Type := {
  store : list Layer;
  selection : list nat;
  messages : list string
}.

Definition withStore (st : list Layer) (d : Document) : Document :=
  {| store := st; selection := selection d; messages := messages d |}.

Definition withSelection (sel : list nat) (d : Document) : Document :=
  {| store := store d; selection := sel; messages := messages d |}.

(** *** Computations on the document: state and exceptions *)

(** How a call ends: with a value, with an exception, or not within
    the steps it was given ([OutOfFuel]). *)
Inductive outcome (A : Type) : Type :=
  | Normal (a : A)
  | TypeError
  | OutOfFuel.
Arguments Normal {A} a.
Arguments TypeError {A}.
Arguments OutOfFuel {A}.

Definition M (A : Type) : Type := Document -> outcome A * Document.

Definition ret {A : Type} (a : A) : M A := fun d => (Normal a, d).

Definition bind {A B : Type} (m : M A) (k : A -> M B) : M B :=
  fun d =>
    match m d with
    | (Normal a, d') => k a d'
    | (TypeError, d') => (TypeError, d')
    | (OutOfFuel, d') => (OutOfFuel, d')
    end.

Definition throw {A : Type} : M A := fun d => (TypeError, d).

Definition outOfFuel {A : Type} : M A := fun d => (OutOfFuel, d).

Declare Scope doc_scope.
Delimit Scope doc_scope with doc.
Notation "'let*' x ':=' m 'in' k" := (bind m (fun x => k))
  (at level 10, x pattern, m at level 100, k at level 200) : doc_scope.
Notation "m1 ';;' m2" := (bind m1 (fun _ => m2))
  (at level 100, m2 at level 200, right associativity) : doc_scope.
Local Open Scope doc_scope.

(** [array.forEach(f)] *)
Fixpoint forEach {A : Type} (l : list A) (f : A -> M unit) : M unit :=
  match l with
  | [] => ret tt
  | a :: l' => f a ;; forEach l' f
  end.

(** A loop [for (let i = i0; i < bound; i++)] carrying a state [s].
    The counter is a double and [i++] adds 1 to it.  Every evaluation of
    the test takes one unit of [fuel]; a loop that is still running when
    the fuel is used up has not ended. *)
Fixpoint forLoop {S : Type} (fuel : nat) (i : float) (bound : jsval)
    (body : float -> S -> M S) (s : S) : M S :=
  match fuel with
  | 0 => outOfFuel
  | Datatypes.S fuel' =>
      if counterLt i bound then
        let* s' := body i s in forLoop fuel' (i + 1)%float bound body s'
      else ret s
  end.

(** [for (let i = 0; i < bound; i++)] *)
Definition forCounter {S : Type} (fuel : nat) (bound : jsval)
    (body : float -> S -> M S) (s : S) : M S :=
  forLoop fuel 0%float bound body s.

(** *** Host operations on layers *)

(** Dereferencing a handle; calling a method on something that is not an
    object raises. *)
Definition getLayer (l : nat) : M Layer :=
  fun d => match store d !! l with
           | Some L => (Normal L, d)
           | None => (TypeError, d)
           end.

Definition modifyLayer (l : nat) (f : Layer -> Layer) : M unit :=
  fun d => match store d !! l with
           | Some _ => (Normal tt, withStore (alter f l (store d)) d)
           | None => (TypeError, d)
           end.

Definition frameX (l : nat) : M float := let* L := getLayer l in ret (x (frame L)).
Definition frameY (l : nat) : M float := let* L := getLayer l in ret (y (frame L)).
Definition frameWidth (l : nat) : M float := let* L := getLayer l in ret (width (frame L)).
Definition frameHeight (l : nat) : M float := let* L := getLayer l in ret (height (frame L)).

Definition withX (v : float) (L : Layer) : Layer :=
  {| name := name L; className := className L;
     frame := {| x := v; y := y (frame L); width := width (frame L); height := height (frame L) |};
     parentGroup := parentGroup L |}.

Definition withY (v : float) (L : Layer) : Layer :=
  {| name := name L; className := className L;
     frame := {| x := x (frame L); y := v; width := width (frame L); height := height (frame L) |};
     parentGroup := parentGroup L |}.

Definition withParent (p : option nat) (L : Layer) : Layer :=
  {| name := name L; className := className L; frame := frame L; parentGroup := p |}.

Definition setX (l : nat) (v : float) : M unit := modifyLayer l (withX v).
Definition setY (l : nat) (v : float) : M unit := modifyLayer l (withY v).

(** [layer.parentGroup()] *)
Definition getParentGroup (l : nat) : M (option nat) :=
  let* L := getLayer l in ret (parentGroup L).

(** The nearest ancestor of a class, walking up the parent links; the
    fuel bounds the walk by the number of objects. *)
Fixpoint ancestorOfClass (fuel : nat) (st : list Layer) (cls : string) (l : nat) : option nat :=
  match fuel with
  | 0 => None
  | Datatypes.S fuel' =>
      L ← st !! l;
      p ← parentGroup L;
      P ← st !! p;
      if String.eqb (className P) cls then Some p else ancestorOfClass fuel' st cls p
  end.

(** [layer.parentArtboard()] and [layer.parentPage()] *)
Definition getParentArtboard (l : nat) : M (option nat) :=
  let* _ := getLayer l in
  fun d => (Normal (ancestorOfClass (length (store d)) (store d) Query.ARTBOARD l), d).

Definition getParentPage (l : nat) : M (option nat) :=
  let* _ := getLayer l in
  fun d => (Normal (ancestorOfClass (length (store d)) (store d) Query.PAGE l), d).

(** [layer.removeFromParent()] *)
Definition removeFromParent (l : nat) : M unit := modifyLayer l (withParent None).

(** [parent.addLayers([layer])] *)
Definition addLayers (parent : option nat) (l : nat) : M unit :=
  match parent with
  | None => throw
  | Some p => modifyLayer l (withParent (Some p))
  end.

(** [document.showMessage(text)] *)
Definition showMessage (text : string) : M unit :=
  fun d => (Normal tt, {| store := store d; selection := selection d;
                          messages := messages d ++ [text] |}).

(** Modelled from the spec: [Utils.copyLayer] ([utils.js] is not among
    the sources).  "Duplicate the anchor": a new layer object with the
    name, class and frame of the original, outside the tree until it is
    inserted.  Nested content of the duplicate is not tracked. *)
Definition copyLayer (l : nat) : M nat :=
  let* L := getLayer l in
  fun d => (Normal (length (store d)), withStore (store d ++ [withParent None L]) d).

(** *** Selection *)

(** [layer.select_byExtendingSelection(select, extend)] on the host's
    selection: deselecting takes the layer out; selecting with [extend]
    puts it at the end unless it is there already; selecting without
    [extend] makes it the whole selection. *)
Definition select_byExtendingSelection (l : nat) (select extend : bool) : M unit :=
  fun d =>
    let sel :=
      if select then
        if extend then
          if bool_decide (l ∈ selection d) then selection d else selection d ++ [l]
        else [l]
      else filter (fun k => k ≠ l) (selection d) in
    (Normal tt, withSelection sel d).

(** [getSelectedLayers()] *)
Definition getSelectedLayers : M (list nat) :=
  fun d => (Normal (rev (selection d)), d).

(** [selectLayers(layers)] *)
Definition selectLayers (layers : list nat) : M unit :=
  (* deselect all layers *)
  let* selectedLayers := getSelectedLayers in
  forEach selectedLayers (fun layer => select_byExtendingSelection layer false false) ;;
  (* select layers *)
  forEach layers (fun layer => select_byExtendingSelection layer true true).

(** *** [createGrid] *)

(** The body of the scan for the "most top left" layer: the state is
    [(layer, smallestX, smallestY)]. *)
Definition anchorStep (tempLayer : nat) (st : nat * float * float) : M (nat * float * float) :=
  let '(layer, smallestX, smallestY) := st in
  let* tx := frameX tempLayer in
  let* ty := frameY tempLayer in
  if (tx <? smallestX)%float || (ty <? smallestY)%float then ret (tempLayer, tx, ty)
  else ret (layer, smallestX, smallestY).

Fixpoint anchorScan (selectedLayers : list nat) (st : nat * float * float)
    : M (nat * float * float) :=
  match selectedLayers with
  | [] => ret st
  | tempLayer :: rest => let* st' := anchorStep tempLayer st in anchorScan rest st'
  end.

(** The body of the inner loop: one copy of [layer] at column [j]. *)
Definition columnBody (opt : Options) (layer : nat) (layerParent : option nat)
    (layerWidth startX y : float) (j : float) (newSelectedLayers : list nat) : M (list nat) :=
  let* copy := copyLayer layer in
  addLayers layerParent copy ;;
  let newSelectedLayers := newSelectedLayers ++ [copy] in
  let x := (startX + j * (layerWidth + toNumber (columnsMargin opt)))%float in
  setX copy x ;;
  setY copy y ;;
  ret newSelectedLayers.

(** The body of the outer loop: row [i]. *)
Definition rowBody (fuel : nat) (opt : Options) (layer : nat) (layerParent : option nat)
    (layerWidth layerHeight startX startY : float) (i : float) (newSelectedLayers : list nat)
    : M (list nat) :=
  let y := (startY + i * (layerHeight + toNumber (rowsMargin opt)))%float in
  forCounter fuel (columnsCount opt)
    (columnBody opt layer layerParent layerWidth startX y) newSelectedLayers.

(** [createGrid(selectedLayers, opt)]: [None] is the [undefined] of a
    bare [return].  [fuel] is what each of the loops may use. *)
Definition createGrid (fuel : nat) (selectedLayers : list nat) (opt : Options)
    : M (option (list nat)) :=
  (* check rows count *)
  if not_ (rowsCount opt) || ltZero (rowsCount opt) then
    showMessage "Number of grid rows must be at least 1." ;; ret None
  (* check rows margin *)
  else if not_ (rowsMargin opt) && notIdenticalZero (rowsMargin opt) then
    showMessage "Grid row margin is invalid." ;; ret None
  (* check column count *)
  else if not_ (columnsCount opt) || ltZero (columnsCount opt) then
    showMessage "Number of grid columns must be at least 1." ;; ret None
  (* check columns margin *)
  else if not_ (columnsMargin opt) && notIdenticalZero (columnsMargin opt) then
    showMessage "Grid column margin is invalid." ;; ret None
  else
    (* get first layer (most top left) *)
    match first selectedLayers with
    | None => throw
    | Some layer0 =>
        let* smallestX := frameX layer0 in
        let* smallestY := frameY layer0 in
        let* (layer, _, _) := anchorScan selectedLayers (layer0, smallestX, smallestY) in
        (* arrange copies of the first layer *)
        let* layerWidth := frameWidth layer in
        let* layerHeight := frameHeight layer in
        let* layerParent := getParentGroup layer in
        let* layerParent :=
          match layerParent with
          | Some _ => ret layerParent
          | None => getParentArtboard layer
          end in
        let* layerParent :=
          match layerParent with
          | Some _ => ret layerParent
          | None => getParentPage layer
          end in
        (* remove selected layers from parent *)
        forEach selectedLayers removeFromParent ;;
        (* keep track of original position *)
        let* startX := frameX layer in
        let* startY := frameY layer in
        (* create rows *)
        let* newSelectedLayers :=
          forCounter fuel (rowsCount opt)
            (rowBody fuel opt layer layerParent layerWidth layerHeight startX startY) [] in
        ret (Some newSelectedLayers)
    end.

(** *** Closed forms of the loops *)

(** The value of the loop counter after [k] increments: 0, 0+1,
    (0+1)+1, ... in doubles. *)
Fixpoint counter (k : nat) : float :=
  match k with
  | 0 => 0%float
  | Datatypes.S k' => (counter k' + 1)%float
  end.

(** The test [i < bound] holds on the first [n] values of the counter
    and fails on the next one: the loop body runs [n] times. *)
Definition countsExactly (bound : jsval) (n : nat) : bool :=
  forallb (fun k => counterLt (counter k) bound) (seq 0 n)
  && negb (counterLt (counter n) bound).

(** The body of a counted loop run on the counter values of a list, in
    order. *)
Fixpoint runOn {S : Type} (counters : list float) (body : float -> S -> M S) (s : S) : M S :=
  match counters with
  | [] => ret s
  | i :: rest => let* s' := body i s in runOn rest body s'
  end.

(** The store after [removeFromParent] on each layer of a list. *)
Definition removeAll (ls : list nat) (st : list Layer) : list Layer :=
  foldl (fun st l => alter (withParent None) l st) st ls.

(** The copy of the anchor [L] placed at row [i], column [j] in the
    parent [P], with the sums and products of the code. *)
Definition gridCopy (opt : Options) (L : Layer) (P : nat) (i j : nat) : Layer :=
  {| name := name L;
     className := className L;
     frame :=
       {| x := (x (frame L)
                + counter j * (width (frame L) + toNumber (columnsMargin opt)))%float;
          y := (y (frame L)
                + counter i * (height (frame L) + toNumber (rowsMargin opt)))%float;
          width := width (frame L);
          height := height (frame L) |};
     parentGroup := Some P |}.

(** The layer a copy of [L1] ends up as, once it is inserted in [P]
    and moved to [(px, py)]. *)
Definition placed (L1 : Layer) (P : nat) (px py : float) : Layer :=
  withY py (withX px (withParent (Some P) (withParent None L1))).

Definition gridRow (opt : Options) (L : Layer) (P : nat) (columns : nat) (i : nat)
    : list Layer :=
  map (gridCopy opt L P i) (seq 0 columns).

Definition gridLayers (opt : Options) (L : Layer) (P : nat) (rows columns : nat)
    : list Layer :=
  flat_map (gridRow opt L P columns) (seq 0 rows).

(** The selection after the two loops of [selectLayers]. *)
Definition deselectAll (ls : list nat) (sel : list nat) : list nat :=
  foldl (fun sel l => filter (fun k => k ≠ l) sel) sel ls.

Definition selectEach (ls : list nat) (sel : list nat) : list nat :=
  foldl (fun sel l => if bool_decide (l ∈ sel) then sel else sel ++ [l]) sel ls.

(** *** What the specification says, for comparison *)

(** The scan for the anchor on plain data: a candidate [(l, x, y)]
    replaces the current anchor when its x is smaller or its y is
    smaller than the current best values, which both become the
    candidate's. *)
Definition replaces (candidate current : nat * float * float) : bool :=
  let '(_, cx, cy) := candidate in
  let '(_, bestX, bestY) := current in
  (cx <? bestX)%float || (cy <? bestY)%float.

Definition scanStep (current candidate : nat * float * float) : nat * float * float :=
  if replaces candidate current then candidate else current.

(** The anchor the scan settles on, counting from the frames of the
    document [d]. *)
Definition positionOf (d : Document) (l : nat) : option (nat * float * float) :=
  L ← store d !! l; Some (l, x (frame L), y (frame L)).

Definition anchorOf (d : Document) (selectedLayers : list nat) : option nat :=
  layer0 ← first selectedLayers;
  start ← positionOf d layer0;
  candidates ← mapM (positionOf d) selectedLayers;
  Some (foldl scanStep start candidates).1.1.

(** A layer that is no longer in the tree: it has no parent. *)
Definition detached (d : Document) (l : nat) : Prop :=
  exists L, store d !! l = Some L /\ parentGroup L = None.

(** The specification passes validation as the code checks it. *)
Definition accepted (opt : Options) : bool :=
  negb (not_ (rowsCount opt) || ltZero (rowsCount opt)) &&
  negb (not_ (rowsMargin opt) && notIdenticalZero (rowsMargin opt)) &&
  negb (not_ (columnsCount opt) || ltZero (columnsCount opt)) &&
  negb (not_ (columnsMargin opt) && notIdenticalZero (columnsMargin opt)).

(** "The operation rejects it (validation failure, returning none)." *)
Definition rejects (fuel : nat) (selectedLayers : list nat) (opt : Options) (d : Document)
    : Prop :=
  (createGrid fuel selectedLayers opt d).1 = Normal None.

(** Where the layers of a list are, in a document. *)
Definition positionsOf (d : Document) (ls : list nat) : list (option (float * float)) :=
  map (fun l => L ← store d !! l; Some (x (frame L), y (frame L))) ls.

(** A count given as a whole number: the double the counter holds
    after [n] increments. *)
Definition whole (n : nat) : jsval := JNum (counter n).

(** *** A concrete document *)

Definition pageLayer : Layer :=
  {| name := "Page 1"; className := "MSPage";
     frame := {| x := 0; y := 0; width := 800; height := 600 |};
     parentGroup := None |}.
Definition layerA : Layer :=
  {| name := "A"; className := "MSRectangleShape";
     frame := {| x := 10; y := 50; width := 20; height := 10 |};
     parentGroup := Some 0 |}.
Definition layerB : Layer :=
  {| name := "B"; className := "MSRectangleShape";
     frame := {| x := 0; y := 0; width := 20; height := 10 |};
     parentGroup := Some 0 |}.

(** A page (handle 0) holding A (handle 1) and B (handle 2). *)
Definition exampleDocument : Document :=
  {| store := [pageLayer; layerA; layerB]; selection := [2; 1]; messages := [] |}.

Definition exampleOptions : Options :=
  {| rowsCount := JNum 2; rowsMargin := JNum 5;
     columnsCount := JNum 2; columnsMargin := JNum 5 |}.

Definition negativeMarginOptions : Options :=
  {| rowsCount := JNum 2; rowsMargin := JNum (-5);
     columnsCount := JNum 2; columnsMargin := JNum 5 |}.

Definition halfRowOptions : Options :=
  {| rowsCount := JNum 0.5; rowsMargin := JNum 5;
     columnsCount := JNum 3; columnsMargin := JNum 5 |}.

Definition zeroRowsOptions : Options :=
  {| rowsCount := JNum 0; rowsMargin := JNum 5;
     columnsCount := JNum 2; columnsMargin := JNum 5 |}.

(** A rows count of [Infinity]: it passes the check of the count. *)
Definition endlessOptions : Options :=
  {| rowsCount := JNum infinity; rowsMargin := JNum 5;
     columnsCount := JNum 2; columnsMargin := JNum 5 |}.

(** A layer at the largest whole number that doubles count up to, one
    unit wide. *)
Definition farLayer : Layer :=
  {| name := "F"; className := "MSRectangleShape";
     frame := {| x := 9007199254740992; y := 0; width := 1; height := 1 |};
     parentGroup := Some 0 |}.

Definition farDocument : Document :=
  {| store := [pageLayer; farLayer]; selection := [1]; messages := [] |}.

(** *** [refreshTextLayer] *)

Definition withFrame (f : Frame) (L : Layer) : Layer :=
  {| name := name L; className := className L; frame := f; parentGroup := parentGroup L |}.

Section TextLayers.

(** The frame [adjustFrameToFit] gives a layer is the host's business;
    it is kept as a parameter. *)
Variable fitted : Layer -> Frame.

(** [layer.adjustFrameToFit()] *)
Definition adjustFrameToFit (l : nat) : M unit :=
  modifyLayer l (fun L => withFrame (fitted L) L).

(** [layer.setIsEditingText(flag)]: a call on the layer object that
    changes nothing the model keeps track of. *)
Definition setIsEditingText (l : nat) (flag : bool) : M unit :=
  let* _ := getLayer l in ret tt.

(** [refreshTextLayer(layer)] *)
Definition refreshTextLayer (layer : nat) : M unit :=
  adjustFrameToFit layer ;;
  select_byExtendingSelection layer true false ;;
  setIsEditingText layer true ;;
  setIsEditingText layer false ;;
  select_byExtendingSelection layer false false.

End TextLayers.

(** [corner] is not to the right of [c] and not below it. *)
Definition notBefore (corner c : nat * float * float) : Prop :=
  (corner.1.2 <=? c.1.2)%float = true /\ (corner.2 <=? c.2)%float = true.

(** Two positions with equal coordinates ([==] on doubles, for which
    the two zeros are equal). *)
Definition samePlace (a b : nat * float * float) : Prop :=
  (a.1.2 =? b.1.2)%float = true /\ (a.2 =? b.2)%float = true.

(** Three layers on a diagonal, none of them at once leftmost and
    topmost. *)
Definition diagonalDocument : Document :=
  {| store :=
       [pageLayer;
        {| name := "A"; className := "MSRectangleShape";
           frame := {| x := 0; y := 10; width := 20; height := 10 |}; parentGroup := Some 0 |};
        {| name := "B"; className := "MSRectangleShape";
           frame := {| x := 10; y := 0; width := 20; height := 10 |}; parentGroup := Some 0 |};
        {| name := "C"; className := "MSRectangleShape";
           frame := {| x := 5; y := 5; width := 20; height := 10 |}; parentGroup := Some 0 |}];
     selection := [3; 2; 1]; messages := [] |}.

(** A document whose only selected layer is outside any group. *)
Definition orphanDocument : Document :=
  {| store := [withParent None layerB]; selection := [0]; messages := [] |}.

End Doc.

(* ===================================================================== *)
(** ** Pages: [findPageWithName], [addPage], [removePage] *)
(* ===================================================================== *)

Module Pages.

(** A page object: [pageID] stands for its identity, [pageName] is what
    [name()] returns, as a JavaScript string. *)
Record MSPage : Type := {
  pageID : nat;
  pageName : string
}.

(** The document as the page functions see it: [pages()], the handle of
    [currentPage()], and the next unused handle. *)
Record PagesDocument : Type := {
  pages : list MSPage;
  currentPage : nat;
  nextID : nat
}.

(** [s.startsWith(n)] on characters. *)
Fixpoint startsWith (n s : string) : bool :=
  match n with
  | EmptyString => true
  | String c n' =>
      match s with
      | EmptyString => false
      | String d s' => Ascii.eqb c d && startsWith n' s'
      end
  end.

(** [s.indexOf(n)]: the first position at which [n] occurs in [s],
    [-1] when there is none.  The search is written from position [i]
    on. *)
Fixpoint indexOfFrom (i : Z) (n s : string) : Z :=
  if startsWith n s then i
  else match s with
       | EmptyString => (-1)%Z
       | String _ s' => indexOfFrom (i + 1)%Z n s'
       end.

Definition indexOf (s n : string) : Z := indexOfFrom 0%Z n s.

(** The test of the loop body on one page. *)
Definition pageMatches (name : string) (fullMatch : bool) (currentPage : MSPage) : bool :=
  if fullMatch then String.eqb (pageName currentPage) name
  else (-1 <? indexOf (pageName currentPage) name)%Z.

(** The loop of [findPageWithName] over [pages]; [None] is the
    [undefined] of falling off the end. *)
Fixpoint findPageIn (pages : list MSPage) (name : string) (fullMatch : bool)
    : option MSPage :=
  match pages with
  | [] => None
  | currentPage :: rest =>
      if fullMatch then
        if String.eqb (pageName currentPage) name then Some currentPage
        else findPageIn rest name fullMatch
      else
        if (-1 <? indexOf (pageName currentPage) name)%Z then Some currentPage
        else findPageIn rest name fullMatch
  end.

(** [findPageWithName(name, fullMatch)] *)
Definition findPageWithName (name : string) (fullMatch : bool) (doc : PagesDocument)
    : option MSPage :=
  findPageIn (pages doc) name fullMatch.

Section HostPages.

(** The name the host gives a blank page. *)
Variable blankName : string.

(** [doc.addBlankPage()]: a new page at the end of the pages, which the
    host also makes the current one. *)
Definition addBlankPage (doc : PagesDocument) : nat * PagesDocument :=
  let page := nextID doc in
  (page,
   {| pages := pages doc ++ [{| pageID := page; pageName := blankName |}];
      currentPage := page;
      nextID := S (nextID doc) |}).

(** [page.setName(name)] *)
Definition setName (page : nat) (name : string) (doc : PagesDocument) : PagesDocument :=
  {| pages := map (fun p => if Nat.eqb (pageID p) page
                            then {| pageID := pageID p; pageName := name |} else p)
                  (pages doc);
     currentPage := currentPage doc;
     nextID := nextID doc |}.

(** [doc.setCurrentPage(page)] *)
Definition setCurrentPage (page : nat) (doc : PagesDocument) : PagesDocument :=
  {| pages := pages doc; currentPage := page; nextID := nextID doc |}.

(** [doc.removePage(page)]: the page leaves the document; when it was
    the current one the host moves on to the first page that is left. *)
Definition hostRemovePage (page : nat) (doc : PagesDocument) : PagesDocument :=
  let rest := List.filter (fun p => negb (Nat.eqb (pageID p) page)) (pages doc) in
  {| pages := rest;
     currentPage := if Nat.eqb (currentPage doc) page
                    then match rest with p :: _ => pageID p | [] => currentPage doc end
                    else currentPage doc;
     nextID := nextID doc |}.

(** [addPage(name)] *)
Definition addPage (name : string) (doc : PagesDocument) : nat * PagesDocument :=
  (* get current page *)
  let currentPage := currentPage doc in
  (* create new page *)
  let '(page, doc) := addBlankPage doc in
  let doc := setName page name doc in
  (* make current page active again *)
  let doc := setCurrentPage currentPage doc in
  (page, doc).

(** [removePage(page)] *)
Definition removePage (page : nat) (doc : PagesDocument) : PagesDocument :=
  (* get current page *)
  let currentPage := currentPage doc in
  (* remove page *)
  let doc := hostRemovePage page doc in
  (* make current page active again *)
  setCurrentPage currentPage doc.

End HostPages.

(** What the loop tests on a page, as a proposition: the whole name
    with [fullMatch], an occurrence of [name] in it otherwise. *)
Definition pageFits (name : string) (fullMatch : bool) (p : MSPage) : Prop :=
  if fullMatch then pageName p = name else Query.contains name (pageName p).

(** Handles are unused from [nextID] on, and no two pages share one. *)
Definition wellFormed (doc : PagesDocument) : Prop :=
  NoDup (map pageID (pages doc)) /\
  forall p, In p (pages doc) -> pageID p < nextID doc.

Definition examplePages : PagesDocument :=
  {| pages := [ {| pageID := 0; pageName := "Page 1" |};
                {| pageID := 1; pageName := "Symbols" |} ];
     currentPage := 0;
     nextID := 2 |}.

End Pages.


(* ===================================================================== *)
(** * Properties *)
(* ===================================================================== *)

(** ** Symbol resolution *)

Section SymbolFacts.
Import Symbols.

Variable matchesSymbol : SymbolMaster -> bool.
Variable matchesReference : SymbolReference -> bool.

Lemma no_local_match_first h :
  noLocalMatch matchesSymbol h ->
  first (filter (fun s => matchesSymbol s = true) (documentSymbols h)) = None.
Proof.
  unfold noLocalMatch. induction (documentSymbols h) as [|s l IH]; intros Hno.
  - reflexivity.
  - rewrite filter_cons. destruct (decide (matchesSymbol s = true)) as [Hs|Hs].
    + rewrite Hno in Hs by (left; reflexivity). discriminate.
    + apply IH. intros s' Hs'. apply Hno. right. exact Hs'.
Qed.

(** On valid libraries the loop never leaves early: it scans them
    all, and each match overwrites the one before. *)
Lemma librariesLoop_all_valid libs : forall i symbolMaster log,
  Forall (fun l => valid l = true) libs ->
  librariesLoop matchesReference i libs symbolMaster log =
    (Some (lastMatch matchesReference libs symbolMaster),
     log ++ fullScan matchesReference i libs).
Proof.
  induction libs as [|lib libs IH]; intros i sm log Hv; simpl.
  - by rewrite app_nil_r.
  - inversion Hv as [|? ? Hlib Hrest]; subst. rewrite Hlib. simpl.
    destruct (first _) as [r|].
    + rewrite IH by assumption. f_equal. by rewrite <- !app_assoc.
    + rewrite IH by assumption. f_equal. by rewrite <- !app_assoc.
Qed.

(** The loop leaves the function at the first invalid library,
    whatever it has found before and whatever comes after. *)
Lemma librariesLoop_invalid pre lib post : forall i symbolMaster log,
  Forall (fun l => valid l = true) pre ->
  valid lib = false ->
  (librariesLoop matchesReference i (pre ++ lib :: post) symbolMaster log).1 = None.
Proof.
  induction pre as [|p pre IH]; intros i sm log Hv Hlib; simpl.
  - by rewrite Hlib.
  - inversion Hv as [|? ? Hp Hrest]; subst. rewrite Hp. simpl.
    destruct (first _); by apply IH.
Qed.

Lemma fullScan_consults libs : forall i k,
  k < length libs -> In (Consulted (i + k)) (fullScan matchesReference i libs).
Proof.
  induction libs as [|lib libs IH]; intros i k Hk; simpl in *; [lia|].
  destruct k as [|k].
  - left. f_equal. lia.
  - right. replace (i + S k) with (S i + k) by lia.
    destruct (first _); [right|]; apply IH; lia.
Qed.

Lemma findSymbolMaster_all_valid h :
  noLocalMatch matchesSymbol h ->
  Forall (fun l => valid l = true) (libraries h) ->
  findSymbolMaster matchesSymbol matchesReference h =
    (match lastMatch matchesReference (libraries h) None with
     | Some m => Object (sketchObject m)
     | None => Null
     end,
     fullScan matchesReference 0 (libraries h)).
Proof.
  intros Hno Hv. unfold findSymbolMaster.
  rewrite (no_local_match_first h Hno).
  rewrite librariesLoop_all_valid by assumption. simpl.
  by destruct (lastMatch _ _ _).
Qed.

Lemma findSymbolMaster_invalid h pre lib post :
  noLocalMatch matchesSymbol h ->
  libraries h = pre ++ lib :: post ->
  Forall (fun l => valid l = true) pre ->
  valid lib = false ->
  (findSymbolMaster matchesSymbol matchesReference h).1 = Undefined.
Proof.
  intros Hno Hl Hv Hlib. unfold findSymbolMaster.
  rewrite (no_local_match_first h Hno), Hl.
  pose proof (librariesLoop_invalid pre lib post 0 None [] Hv Hlib) as H.
  destruct (librariesLoop _ _ _ _ _) as [[o|] log]; simpl in *; [discriminate|reflexivity].
Qed.

End SymbolFacts.

Section SymbolClaims.
Import Symbols.

(** C2, as amended.  With no matching master in the document and
    every registered library valid, both entry points scan all the
    libraries: each library is consulted, the first matching reference
    of every library that has one is imported, and the result is the
    master from the last such library ([null] when there is none). *)
Theorem C2_resolver_scans_every_valid_library :
  (forall name h,
     noLocalMatch (fun s => String.eqb (symbolName s) name) h ->
     Forall (fun l => valid l = true) (libraries h) ->
     let scan := fullScan (fun r => String.eqb (refName r) name) 0 (libraries h) in
     findSymbolMasterWithName name h =
       (match lastMatch (fun r => String.eqb (refName r) name) (libraries h) None with
        | Some m => Object (sketchObject m)
        | None => Null
        end, scan) /\
     forall k, k < length (libraries h) -> In (Consulted k) scan) /\
  (forall id h,
     noLocalMatch (fun s => String.eqb (symbolId s) id) h ->
     Forall (fun l => valid l = true) (libraries h) ->
     let scan := fullScan (fun r => String.eqb (refId r) id) 0 (libraries h) in
     findSymbolMasterWithId id h =
       (match lastMatch (fun r => String.eqb (refId r) id) (libraries h) None with
        | Some m => Object (sketchObject m)
        | None => Null
        end, scan) /\
     forall k, k < length (libraries h) -> In (Consulted k) scan).
Proof.
  split; intros c h Hno Hv; simpl; (split;
    [ by apply findSymbolMaster_all_valid
    | intros k Hk; by apply (fullScan_consults _ (libraries h) 0 k) ]).
Qed.

Lemma C2_resolver_scans_every_valid_library_witness :
  findSymbolMasterWithName "Button" twoValidLibraries =
    (Object 2, [Consulted 0; Imported 0 refA; Consulted 1; Imported 1 refB]).
Proof.
  destruct C2_resolver_scans_every_valid_library as [Hname _].
  destruct (Hname "Button"%string twoValidLibraries) as [H _].
  - intros s Hs. destruct Hs.
  - repeat constructor.
  - exact H.
Defined.

(** C2, as stated, fails: with two valid libraries that both have a
    reference named "Button", the loop goes on after the first import;
    the second library is consulted and imported from, and its master
    is the one returned. *)
Lemma C2_counterexample_later_library_consulted :
  ~ stopsAtFirstMatch (fun r => String.eqb (refName r) "Button") twoValidLibraries
      (findSymbolMasterWithName "Button" twoValidLibraries) /\
  findSymbolMasterWithName "Button" twoValidLibraries =
    (Object (sketchObject buttonB),
     [Consulted 0; Imported 0 refA; Consulted 1; Imported 1 refB]).
Proof.
  split; [|reflexivity].
  unfold stopsAtFirstMatch. vm_compute. intros [H _]. discriminate H.
Qed.

(** C3: an invalid library in front of a valid one that has the only
    matching reference.  The guard [if (!library.valid) return] leaves
    the function with [undefined]; the valid library is never reached
    and nothing is imported. *)
Theorem C3_invalid_library_ends_the_search :
  findSymbolMasterWithName "Button" invalidThenValid = (Undefined, []) /\
  findSymbolMasterWithId "B-1" invalidThenValid = (Undefined, []).
Proof. split; reflexivity. Qed.

End SymbolClaims.

(** ** The [LIKE] operator *)

Section LikeFacts.
Import Query.
Local Open Scope string_scope.

Lemma like_star p s :
  like (String "*" p) s =
  like p s || match s with EmptyString => false | String _ s' => like (String "*" p) s' end.
Proof. destruct s; reflexivity. Qed.

Lemma like_star_iff p s :
  like (String "*" p) s = true <-> exists pre post, s = pre ++ post /\ like p post = true.
Proof.
  induction s as [|c s IH]; rewrite like_star, orb_true_iff.
  - split.
    + intros [H|H]; [|discriminate]. by exists "", "".
    + intros (pre & post & Heq & H). left.
      destruct pre; [|discriminate]. simpl in Heq. by subst.
  - rewrite IH. split.
    + intros [H|(pre & post & Heq & H)].
      * by exists "", (String c s).
      * exists (String c pre), post. simpl. by rewrite Heq.
    + intros (pre & post & Heq & H). destruct pre as [|d pre]; simpl in Heq.
      * left. by subst.
      * right. injection Heq as -> ->. by exists pre, post.
Qed.

Lemma like_any s : like "*" s = true.
Proof.
  induction s as [|c s IH]; [reflexivity|].
  rewrite like_star, IH. apply orb_true_r.
Qed.

Lemma like_literal_prefix n : forall q s,
  literal n = true ->
  like (n ++ q) s = true <-> exists t, s = n ++ t /\ like q t = true.
Proof.
  induction n as [|c n IH]; intros q s Hlit.
  - simpl. split; [intros H; by exists s | by intros (t & -> & H)].
  - simpl in Hlit. apply andb_true_iff in Hlit as [Hc Hn].
    apply andb_true_iff in Hc as [Hstar Hq].
    apply negb_true_iff in Hstar, Hq.
    change (String c n ++ q) with (String c (n ++ q)).
    cbn [like]. rewrite Hstar, Hq. destruct s as [|d s].
    + split; [discriminate | intros (t & Heq & _); discriminate].
    + rewrite andb_true_iff, (IH q s Hn), Ascii.eqb_eq. split.
      * intros [-> (t & -> & H)]. by exists t.
      * intros (t & Heq & H). simpl in Heq. injection Heq as -> ->. eauto.
Qed.

Lemma append_empty_r s : s ++ "" = s.
Proof. induction s as [|c s IH]; simpl; congruence. Qed.

(** A pattern without wildcards matches its own text and nothing else. *)
Lemma like_literal n s : literal n = true -> like n s = true <-> n = s.
Proof.
  intros Hlit. rewrite <- (append_empty_r n) at 1.
  rewrite (like_literal_prefix n "" s Hlit). split.
  - intros (t & -> & H). destruct t; [|discriminate]. by rewrite append_empty_r.
  - intros ->. exists "". by rewrite append_empty_r.
Qed.

(** Containment is what a pattern with a [*] on both sides selects. *)
Lemma like_contains n s :
  literal n = true -> like ("*" ++ n ++ "*") s = true <-> contains n s.
Proof.
  intros Hlit. change ("*" ++ n ++ "*") with (String "*" (n ++ "*")).
  rewrite like_star_iff. unfold contains. split.
  - intros (pre & post & -> & H).
    apply (like_literal_prefix n "*" post Hlit) in H as (t & -> & _). eauto.
  - intros (pre & post & ->). exists pre, (n ++ post). split; [reflexivity|].
    apply (like_literal_prefix n "*" _ Hlit). exists post. split; [reflexivity|apply like_any].
Qed.

End LikeFacts.

(** ** Layer queries *)

Section QueryFacts.
Import Query.

Variable selfInString : MSLayer -> string -> option bool.

Lemma filtered_by_test cs (f : MSLayer -> bool) ls :
  (forall l, evalPredicate selfInString cs l = Some (f l)) ->
  filteredArrayUsingPredicate selfInString cs ls = Some (List.filter f ls).
Proof.
  intros Hf. induction ls as [|l ls IH]; simpl; [reflexivity|].
  rewrite Hf, IH. simpl. by destruct (f l).
Qed.

(** Outside the one combination in which the arguments do not line up
    with the placeholders, a query returns, in the order of the
    enumeration, the layers that pass all the tests. *)
Lemma findLayersInLayer_selects nameArg exactMatch type rootLayer subLayersOnly ex :
  shapeWithExclusion type ex = false ->
  findLayersInLayer selfInString nameArg exactMatch type rootLayer subLayersOnly ex =
    Returned (List.filter (selects nameArg exactMatch type ex)
                (if subLayersOnly then layers rootLayer else children rootLayer)).
Proof.
  intros Hok. unfold findLayersInLayer, formatRulesAndArgs.
  destruct nameArg as [n|]; [destruct (truthy (Some n)) eqn:Hn|];
  (destruct type as [t|];
    [destruct (truthy (Some t)) eqn:Ht; [destruct (String.eqb t SHAPE) eqn:Hs|]|]);
  destruct ex as [ex|]; destruct exactMatch; simpl in Hok; try congruence; simpl.
  all: erewrite filtered_by_test; [reflexivity|].
  all: intros l; unfold selects, kindAllows, excluded; rewrite ?Hn, ?Ht, ?Hs; simpl.
  all: destruct (name l) as [ln|]; simpl; try reflexivity.
  all: repeat match goal with
              | |- context [if ?b then _ else _] => destruct b; simpl
              end; reflexivity.
Qed.

(** With the generic shape kind the exclusion array is pushed after
    the kind, but the shape rule has no placeholder: the placeholder of
    the exclusion rule receives the kind, and the array is never
    looked at. *)
Lemma findLayersInLayer_shape_ignores_exclusion nameArg exactMatch rootLayer
    subLayersOnly ex ex' :
  findLayersInLayer selfInString nameArg exactMatch (Some SHAPE) rootLayer
    subLayersOnly (Some ex) =
  findLayersInLayer selfInString nameArg exactMatch (Some SHAPE) rootLayer
    subLayersOnly (Some ex').
Proof.
  unfold findLayersInLayer, formatRulesAndArgs.
  destruct nameArg as [n|]; [destruct (truthy (Some n))|]; destruct exactMatch; reflexivity.
Qed.

(** For every kind but the generic shape kind, no layer of the
    exclusion array is returned. *)
Lemma findLayersInLayer_excludes nameArg exactMatch type rootLayer subLayersOnly ex l :
  shapeWithExclusion type (Some ex) = false ->
  existsb (sameObject l) ex = true ->
  exists ls,
    findLayersInLayer selfInString nameArg exactMatch type rootLayer subLayersOnly (Some ex)
      = Returned ls /\ ~ In l ls.
Proof.
  intros Hok Hex. rewrite findLayersInLayer_selects by exact Hok.
  eexists; split; [reflexivity|]. rewrite filter_In. intros [_ Hsel].
  unfold selects, excluded in Hsel. destruct (name l); [|discriminate].
  rewrite Hex, andb_false_r in Hsel. discriminate.
Qed.

Lemma selects_iff nameArg exactMatch type ex l :
  selects nameArg exactMatch type ex l = true <->
  (exists n, name l = Some n /\
     match nameArg with
     | Some a => if truthy nameArg
                 then (if exactMatch then String.eqb n a else like a n) = true
                 else True
     | None => True
     end) /\
  kindAllows type l = true /\ excluded ex l = false.
Proof.
  unfold selects. destruct (name l) as [n|].
  - rewrite !andb_true_iff, negb_true_iff. split.
    + intros [[H1 H2] H3]. repeat split; try assumption. exists n. split; [reflexivity|].
      destruct nameArg; [destruct (truthy _)|]; done.
    + intros [(n' & [= <-] & H1) [H2 H3]]. repeat split; try assumption.
      destruct nameArg; [destruct (truthy _)|]; done.
  - split; [discriminate|]. by intros [(n & Hn & _) _].
Qed.

(** C8, as amended.  For a non-empty name N (leaving aside the generic
    shape kind combined with an exclusion array): with
    [exactMatch=true] only layers named exactly N are returned; with
    [exactMatch=false] the layers returned are exactly the candidates
    of an allowed kind, not excluded, whose name matches N as a [LIKE]
    pattern; when N has no wildcard that is the same query as the exact
    one; and the candidates whose name contains N are what the pattern
    [*N*] returns. *)
Theorem C8_exact_name_or_like_pattern (N : string) (type : option string)
    (rootLayer : RootLayer) (subLayersOnly : bool) (ex : option (list MSLayer)) :
  N <> ""%string ->
  shapeWithExclusion type ex = false ->
  let candidates := if subLayersOnly then layers rootLayer else children rootLayer in
  let query nameArg exactMatch :=
    findLayersInLayer selfInString (Some nameArg) exactMatch type rootLayer subLayersOnly ex in
  (exists ls, query N true = Returned ls /\ forall l, In l ls -> name l = Some N) /\
  (exists ls, query N false = Returned ls /\
     forall l, In l ls <->
       In l candidates /\ (exists n, name l = Some n /\ like N n = true) /\
       kindAllows type l = true /\ excluded ex l = false) /\
  (literal N = true -> query N false = query N true) /\
  (literal N = true ->
   exists ls, query ("*" ++ N ++ "*")%string false = Returned ls /\
     forall l, In l ls <->
       In l candidates /\ (exists n, name l = Some n /\ contains N n) /\
       kindAllows type l = true /\ excluded ex l = false).
Proof.
  intros HN Hok candidates query. subst query. cbv beta.
  assert (HtN : truthy (Some N) = true).
  { simpl. apply negb_true_iff, String.eqb_neq, HN. }
  rewrite !findLayersInLayer_selects by exact Hok. fold candidates.
  repeat split.
  - eexists; split; [reflexivity|]. intros l [_ Hsel]%filter_In.
    apply selects_iff in Hsel as [(n & Hn & Hm) _]. rewrite HtN in Hm.
    apply String.eqb_eq in Hm. congruence.
  - eexists; split; [reflexivity|]. intros l. rewrite filter_In, selects_iff, HtN.
    reflexivity.
  - intros Hlit. f_equal. apply filter_ext. intros l. unfold selects.
    destruct (name l) as [n|]; [|reflexivity]. rewrite HtN. do 2 f_equal.
    apply eq_true_iff_eq. rewrite (like_literal N n Hlit), String.eqb_eq. split; congruence.
  - intros Hlit. eexists; split; [reflexivity|]. intros l.
    rewrite filter_In, selects_iff.
    change (truthy (Some ("*" ++ N ++ "*")%string)) with true. cbv iota.
    split.
    + intros (Hin & (n & Hn & Hm) & Hk & He). repeat split; try assumption.
      exists n. split; [assumption|]. by apply (like_contains N n Hlit).
    + intros (Hin & (n & Hn & Hm) & Hk & He). repeat split; try assumption.
      exists n. split; [assumption|]. by apply (like_contains N n Hlit).
Qed.

End QueryFacts.

Section QueryFoundationFacts.
Import Query.

Lemma filtered_raises_or_empty cs (f : MSLayer -> bool) ls :
  (forall l, evalPredicate foundationSelfInString cs l = if f l then None else Some false) ->
  match filteredArrayUsingPredicate foundationSelfInString cs ls with
  | None => Raised
  | Some queryResult => Returned queryResult
  end = if existsb f ls then Raised else Returned [].
Proof.
  intros Hf. induction ls as [|l ls IH]; simpl; [reflexivity|].
  rewrite Hf. destruct (f l); simpl; [reflexivity|].
  destruct (filteredArrayUsingPredicate _ _ _), (existsb f ls); simpl in *; congruence.
Qed.

(** The generic shape kind with an exclusion array, on Foundation: the
    placeholder of the exclusion rule receives the kind, a string, so
    the test raises on every layer that gets as far as that rule. *)
Lemma shape_with_exclusion_outcome nameArg exactMatch rootLayer subLayersOnly ex :
  findLayersInLayer foundationSelfInString nameArg exactMatch (Some SHAPE) rootLayer
    subLayersOnly (Some ex) =
  if existsb (selects nameArg exactMatch (Some SHAPE) None)
       (if subLayersOnly then layers rootLayer else children rootLayer)
  then Raised else Returned [].
Proof.
  unfold findLayersInLayer, formatRulesAndArgs.
  destruct nameArg as [n|]; [destruct (truthy (Some n)) eqn:Hn|];
    destruct exactMatch; simpl.
  all: apply filtered_raises_or_empty.
  all: intros l; unfold selects, kindAllows, excluded, foundationSelfInString;
    rewrite ?Hn; simpl.
  all: destruct (name l) as [ln|]; simpl; try reflexivity.
  all: repeat match goal with
              | |- context [if ?b then _ else _] => destruct b; simpl
              end; reflexivity.
Qed.

End QueryFoundationFacts.

Section QueryClaims.
Import Query.

Lemma C8_exact_name_or_like_pattern_witness :
  "foo"%string <> ""%string /\
  exists ls,
    findLayersInLayer foundationSelfInString (Some "foo"%string) false ANY rootFoobar true None
      = Returned ls /\
    forall l, In l ls <->
      In l (layers rootFoobar) /\ (exists n, name l = Some n /\ like "foo" n = true) /\
      kindAllows ANY l = true /\ excluded None l = false.
Proof.
  split; [discriminate|].
  exact (proj1 (proj2 (C8_exact_name_or_like_pattern foundationSelfInString
                         "foo"%string ANY rootFoobar true None
                         ltac:(discriminate) eq_refl))).
Defined.

(** C8, as stated, fails: a text layer named "foobar" is a candidate
    of an unqualified search and its name contains "foo", but the
    query for "foo" with [exactMatch=false] returns nothing: [LIKE]
    without a wildcard compares the whole name. *)
Lemma C8_counterexample_like_is_not_containment :
  ~ returnsSubstringMatches "foo" (layers rootFoobar)
      (findLayersInLayer foundationSelfInString (Some "foo"%string) false ANY
         rootFoobar true None).
Proof.
  intros (ls & Hret & Hiff). vm_compute in Hret. injection Hret as <-.
  apply (proj2 (Hiff textFoobar)). split.
  - left. reflexivity.
  - exists "foobar"%string. split; [reflexivity|]. by exists ""%string, "bar"%string.
Qed.

(** The generic shape kind on a root holding the rectangles L and M,
    both named "a", with an exclusion array.  Whatever the predicate
    engine makes of [SELF IN "MSShapeGroup"], the query gives the same
    outcome for the arrays [[L]] and [[M]]: with Foundation it raises,
    and were the test to come out false both layers would be
    returned. *)
Lemma shape_kind_example :
  (forall selfInString,
     findLayersInLayer selfInString (Some "a"%string) true (Some SHAPE) rootLM true
       (Some [rectL]) =
     findLayersInLayer selfInString (Some "a"%string) true (Some SHAPE) rootLM true
       (Some [rectM])) /\
  findLayersInLayer foundationSelfInString (Some "a"%string) true (Some SHAPE) rootLM true
    (Some [rectL]) = Raised /\
  findLayersInLayer (fun _ _ => Some false) (Some "a"%string) true (Some SHAPE) rootLM true
    (Some [rectL]) = Returned [rectL; rectM].
Proof. repeat split. Qed.

(** C4: with the predicate engine of Foundation no layer of the
    exclusion array is ever returned, whatever the name, the match
    flag, the kind (the generic shape kind and the omitted kind
    included), the root, the scope and the array.  For every kind but
    the generic shape kind the query returns the layers that pass the
    tests, none of them excluded; for the generic shape kind the array
    is never looked at and the query raises or returns the empty
    array. *)
Theorem C4_excluded_layers_are_never_returned
    (nameArg : option string) (exactMatch : bool) (type : option string)
    (rootLayer : RootLayer) (subLayersOnly : bool) (ex : list MSLayer) :
  (forall ls l e,
     findLayersInLayer foundationSelfInString nameArg exactMatch type rootLayer
       subLayersOnly (Some ex) = Returned ls ->
     In l ls -> In e ex -> sameObject l e = false) /\
  (shapeWithExclusion type (Some ex) = false ->
   findLayersInLayer foundationSelfInString nameArg exactMatch type rootLayer
     subLayersOnly (Some ex) =
   Returned (List.filter (selects nameArg exactMatch type (Some ex))
               (if subLayersOnly then layers rootLayer else children rootLayer))) /\
  (shapeWithExclusion type (Some ex) = true ->
   findLayersInLayer foundationSelfInString nameArg exactMatch type rootLayer
     subLayersOnly (Some ex) = Raised \/
   findLayersInLayer foundationSelfInString nameArg exactMatch type rootLayer
     subLayersOnly (Some ex) = Returned []).
Proof.
  assert (shapeWithExclusion type (Some ex) = true ->
          findLayersInLayer foundationSelfInString nameArg exactMatch type rootLayer
            subLayersOnly (Some ex) = Raised \/
          findLayersInLayer foundationSelfInString nameArg exactMatch type rootLayer
            subLayersOnly (Some ex) = Returned []) as Hshape.
  { intros Hs. destruct type as [t|]; [|discriminate Hs]. simpl in Hs.
    apply String.eqb_eq in Hs as ->.
    rewrite shape_with_exclusion_outcome. destruct (existsb _ _); [by left|by right]. }
  split; [|split; [by apply findLayersInLayer_selects|exact Hshape]].
  intros ls l e Hret Hl He.
  destruct (shapeWithExclusion type (Some ex)) eqn:Hs.
  - destruct (Hshape eq_refl) as [H|H]; rewrite H in Hret; [discriminate Hret|].
    injection Hret as <-. destruct Hl.
  - rewrite findLayersInLayer_selects in Hret by exact Hs. injection Hret as <-.
    apply filter_In in Hl as [_ Hsel].
    apply selects_iff in Hsel as (_ & _ & Hex). simpl in Hex.
    destruct (sameObject l e) eqn:Hle; [|reflexivity].
    assert (existsb (sameObject l) ex = true) as Habs
      by (apply existsb_exists; by exists e).
    congruence.
Qed.

Lemma C4_excluded_layers_are_never_returned_witness :
  findLayersInLayer foundationSelfInString (Some "a"%string) true
    (Some "MSRectangleShape"%string) rootLM true (Some [rectL]) = Returned [rectM] /\
  sameObject rectM rectL = false.
Proof.
  split; [reflexivity|].
  apply (proj1 (C4_excluded_layers_are_never_returned (Some "a"%string) true
                  (Some "MSRectangleShape"%string) rootLM true [rectL]) [rectM] rectM rectL);
    [reflexivity | left; reflexivity | left; reflexivity].
Defined.

End QueryClaims.

(** ** Doubles: the order facts the code relies on *)

Section FloatFacts.
Local Open Scope float_scope.

Lemma SFcompare_antisym x y c :
  SFcompare x y = Some c -> SFcompare y x = Some (CompOpp c).
Proof.
  destruct x as [sx|sx| |sx mx ex], y as [sy|sy| |sy my ey]; simpl;
    try discriminate; try (intros [= <-]; reflexivity);
    try (destruct sx; intros [= <-]; reflexivity);
    try (destruct sy; intros [= <-]; reflexivity);
    try (destruct sx, sy; intros [= <-]; reflexivity).
  intros [= <-]. f_equal.
  rewrite (Z.compare_antisym ex ey).
  change (Pos.compare_cont Eq my mx) with (Pos.compare my mx).
  change (Pos.compare_cont Eq mx my) with (Pos.compare mx my).
  rewrite (Pos.compare_antisym mx my).
  destruct sx, sy; simpl; try reflexivity;
    destruct (ex ?= ey)%Z; simpl; try reflexivity;
    destruct (mx ?= my)%positive; reflexivity.
Qed.

Lemma SFcompare_refl x : x <> S754_nan -> SFcompare x x = Some Eq.
Proof.
  destruct x as [s|s| |s m e]; simpl; intros Hx; try reflexivity; try congruence.
  - by destruct s.
  - rewrite Z.compare_refl.
    change (Pos.compare_cont Eq m m) with (Pos.compare m m). rewrite Pos.compare_refl.
    by destruct s.
Qed.

Lemma SFcompare_some x y c : SFcompare x y = Some c -> x <> S754_nan /\ y <> S754_nan.
Proof. destruct x, y; simpl; try discriminate; by split. Qed.

Lemma SFcompare_total x y :
  x <> S754_nan -> y <> S754_nan -> exists c, SFcompare x y = Some c.
Proof. destruct x, y; simpl; intros Hx Hy; try congruence; by eexists. Qed.

Lemma SFcompare_eq_right a b c :
  SFcompare a b = Some Eq -> SFcompare c a = SFcompare c b.
Proof.
  destruct a as [sa|sa| |sa ma ea], b as [sb|sb| |sb mb eb]; simpl; intros H;
    try discriminate H.
  all: repeat match goal with s : bool |- _ => destruct s end;
    try discriminate H; try reflexivity; try (destruct c; reflexivity).
  all: injection H as H;
    change (Pos.compare_cont Eq ma mb) with (Pos.compare ma mb) in H;
    destruct (ea ?= eb)%Z eqn:He; try discriminate H;
    apply Z.compare_eq in He;
    destruct (ma ?= mb)%positive eqn:Hm; try discriminate H;
    apply Pos.compare_eq in Hm; by subst.
Qed.

Lemma is_nan_spec f : is_nan f = false <-> Prim2SF f <> S754_nan.
Proof.
  unfold is_nan. split.
  - intros H%negb_false_iff Hn. rewrite FloatAxioms.eqb_spec in H. unfold SFeqb in H.
    rewrite Hn in H. discriminate.
  - intros H. apply negb_false_iff. rewrite FloatAxioms.eqb_spec. unfold SFeqb.
    by rewrite SFcompare_refl.
Qed.

Lemma float_lt_antisym a b : (a <? b) = true -> (b <? a) = false.
Proof.
  rewrite !FloatAxioms.ltb_spec. unfold SFltb.
  destruct (SFcompare (Prim2SF a) (Prim2SF b)) as [[]|] eqn:H; try discriminate.
  by rewrite (SFcompare_antisym _ _ _ H).
Qed.

Lemma float_lt_not_eq a b : (a <? b) = true -> (a =? b) = false /\ (b =? a) = false.
Proof.
  rewrite FloatAxioms.ltb_spec, !FloatAxioms.eqb_spec. unfold SFltb, SFeqb.
  destruct (SFcompare (Prim2SF a) (Prim2SF b)) as [[]|] eqn:H; try discriminate.
  by rewrite (SFcompare_antisym _ _ _ H).
Qed.

Lemma float_lt_not_nan a b : (a <? b) = true -> is_nan a = false /\ is_nan b = false.
Proof.
  intros Hlt. rewrite FloatAxioms.ltb_spec in Hlt. unfold SFltb in Hlt.
  destruct (SFcompare (Prim2SF a) (Prim2SF b)) as [[]|] eqn:H; try discriminate.
  apply SFcompare_some in H as [Ha Hb]. split; by apply is_nan_spec.
Qed.

Lemma float_eq_not_nan a b : (a =? b) = true -> is_nan a = false /\ is_nan b = false.
Proof.
  intros Heq. rewrite FloatAxioms.eqb_spec in Heq. unfold SFeqb in Heq.
  destruct (SFcompare (Prim2SF a) (Prim2SF b)) as [[]|] eqn:H; try discriminate.
  apply SFcompare_some in H as [Ha Hb]. split; by apply is_nan_spec.
Qed.

Lemma float_le_cases a b : (a <=? b) = (a <? b) || (a =? b).
Proof.
  rewrite FloatAxioms.leb_spec, FloatAxioms.ltb_spec, FloatAxioms.eqb_spec. unfold SFleb, SFltb, SFeqb.
  by destruct (SFcompare _ _) as [[]|].
Qed.

(** Two doubles that are numbers are equal or one is below the other. *)
Lemma float_total a b :
  is_nan a = false -> is_nan b = false -> (a <? b) || (a =? b) || (b <? a) = true.
Proof.
  intros Ha%is_nan_spec Hb%is_nan_spec. rewrite !FloatAxioms.ltb_spec, FloatAxioms.eqb_spec. unfold SFltb, SFeqb.
  destruct (SFcompare_total _ _ Ha Hb) as [c Hc]. rewrite Hc, (SFcompare_antisym _ _ _ Hc).
  by destruct c.
Qed.

Lemma float_eq_le_not_lt a b c : (a =? b) = true -> (b <=? c) = true -> (c <? a) = false.
Proof.
  rewrite FloatAxioms.eqb_spec, FloatAxioms.leb_spec, FloatAxioms.ltb_spec. unfold SFeqb, SFleb, SFltb. intros Hab Hbc.
  destruct (SFcompare (Prim2SF a) (Prim2SF b)) as [[]|] eqn:H; try discriminate.
  rewrite (SFcompare_eq_right _ _ (Prim2SF c) H).
  destruct (SFcompare (Prim2SF b) (Prim2SF c)) as [[]|] eqn:H'; try discriminate;
    by rewrite (SFcompare_antisym _ _ _ H').
Qed.

Lemma float_le_not_lt_eq a b : (a <=? b) = true -> (a <? b) = false -> (b =? a) = true.
Proof.
  rewrite FloatAxioms.leb_spec, FloatAxioms.ltb_spec, FloatAxioms.eqb_spec. unfold SFleb, SFltb, SFeqb.
  destruct (SFcompare (Prim2SF a) (Prim2SF b)) as [[]|] eqn:H; try discriminate.
  by rewrite (SFcompare_antisym _ _ _ H).
Qed.

Lemma float_le_refl_eq a : (a <=? a) = true -> (a =? a) = true.
Proof.
  rewrite float_le_cases. intros [H|H]%orb_true_iff; [|exact H].
  by rewrite (float_lt_antisym a a H) in H.
Qed.

End FloatFacts.

(** ** Validation *)

Section NumberFacts.
Import Doc.
Local Open Scope float_scope.

(** A count passes its check exactly when it is a number above zero
    (which [Infinity] is). *)
Lemma count_check v :
  not_ v || ltZero v = false <-> exists f, v = JNum f /\ (0 <? f) = true.
Proof.
  destruct v as [| |f]; simpl; try (split; [discriminate|by intros (f & ? & _)]).
  unfold ltZero. simpl. split.
  - intros [[He Hn]%orb_false_iff Hl]%orb_false_iff. exists f. split; [reflexivity|].
    pose proof (float_total f 0 Hn eq_refl) as Ht. rewrite Hl, He in Ht. exact Ht.
  - intros (f' & [= <-] & Hpos).
    destruct (float_lt_not_eq _ _ Hpos) as [_ He].
    destruct (float_lt_not_nan _ _ Hpos) as [_ Hn].
    by rewrite He, Hn, (float_lt_antisym _ _ Hpos).
Qed.

(** A margin passes its check exactly when it is a number (not NaN). *)
Lemma margin_check v :
  not_ v && notIdenticalZero v = false <-> exists f, v = JNum f /\ is_nan f = false.
Proof.
  destruct v as [| |f]; simpl; try (split; [discriminate|by intros (f & ? & _)]).
  split.
  - intros H. exists f. split; [reflexivity|].
    destruct (f =? 0) eqn:He; [by destruct (float_eq_not_nan _ _ He)|].
    simpl in H. by rewrite andb_true_r in H.
  - intros (f' & [= <-] & Hn). rewrite Hn. by destruct (f =? 0).
Qed.

Lemma accepted_iff opt :
  accepted opt = true <->
  exists r rm c cm,
    opt = {| rowsCount := JNum r; rowsMargin := JNum rm;
             columnsCount := JNum c; columnsMargin := JNum cm |} /\
    (0 <? r) = true /\ is_nan rm = false /\ (0 <? c) = true /\ is_nan cm = false.
Proof.
  unfold accepted. rewrite !andb_true_iff, !negb_true_iff.
  rewrite !count_check, !margin_check. destruct opt as [r rm c cm]; simpl. split.
  - intros [[[(qr & -> & Hr) (qrm & -> & Hrm)] (qc & -> & Hc)] (qcm & -> & Hcm)].
    by exists qr, qrm, qc, qcm.
  - intros (qr & qrm & qc & qcm & [= -> -> -> ->] & Hr & Hrm & Hc & Hcm). eauto 12.
Qed.

Lemma accepted_numbers r rm c cm :
  (0 <? r) = true -> is_nan rm = false -> (0 <? c) = true -> is_nan cm = false ->
  accepted {| rowsCount := JNum r; rowsMargin := JNum rm;
              columnsCount := JNum c; columnsMargin := JNum cm |} = true.
Proof. intros Hr Hrm Hc Hcm. apply accepted_iff. by exists r, rm, c, cm. Qed.

End NumberFacts.

(** ** Loops *)

Section LoopFacts.
Import Doc.
Local Open Scope doc_scope.

Lemma bind_normal {A B} (m : M A) (k : A -> M B) d a d' :
  m d = (Normal a, d') -> bind m k d = k a d'.
Proof. unfold bind. by intros ->. Qed.

Lemma countsExactly_spec bound n :
  countsExactly bound n = true <->
  (forall k, k < n -> counterLt (counter k) bound = true) /\
  counterLt (counter n) bound = false.
Proof.
  unfold countsExactly. rewrite andb_true_iff, negb_true_iff, forallb_forall. split.
  - intros [Hall Hn]. split; [|exact Hn]. intros k Hk. apply Hall, in_seq. lia.
  - intros [Hall Hn]. split; [|exact Hn]. intros k Hk%in_seq. apply Hall. lia.
Qed.

Lemma forLoop_runOn {S} (body : float -> S -> M S) bound n m : forall k fuel s d,
  (forall j, j < n -> counterLt (counter j) bound = true) ->
  counterLt (counter n) bound = false ->
  k + m = n -> m < fuel ->
  forLoop fuel (counter k) bound body s d = runOn (map counter (seq k m)) body s d.
Proof.
  induction m as [|m IH]; intros k fuel s d Hlt Hn Hk Hfuel.
  - destruct fuel as [|fuel]; [lia|]. simpl.
    replace k with n by lia. by rewrite Hn.
  - destruct fuel as [|fuel]; [lia|]. simpl.
    rewrite Hlt by lia. unfold bind.
    destruct (body (counter k) s d) as [[s'| |] d']; try reflexivity.
    apply (IH (Datatypes.S k)); try assumption; lia.
Qed.

(** A loop whose test holds on the first [n] values of the counter and
    fails on the next one runs its body on exactly those [n] values,
    given the [n + 1] evaluations of the test. *)
Lemma forCounter_runOn {S} (body : float -> S -> M S) bound n fuel s d :
  countsExactly bound n = true -> n < fuel ->
  forCounter fuel bound body s d = runOn (map counter (seq 0 n)) body s d.
Proof.
  intros [Hlt Hn]%countsExactly_spec Hfuel.
  apply (forLoop_runOn body bound n n 0); try assumption; lia.
Qed.

(** While the test holds, a loop that is out of fuel has not ended. *)
Lemma forLoop_outOfFuel {S} (body : float -> S -> M S) bound fuel : forall k s d,
  (forall j, k <= j < k + fuel -> counterLt (counter j) bound = true) ->
  (forall i s0 d0, exists s1 d1, body i s0 d0 = (Normal s1, d1)) ->
  (forLoop fuel (counter k) bound body s d).1 = OutOfFuel.
Proof.
  induction fuel as [|fuel IH]; intros k s d Hlt Hbody; [reflexivity|]. simpl.
  rewrite Hlt by lia. destruct (Hbody (counter k) s d) as (s1 & d1 & Hb).
  rewrite (bind_normal _ _ _ _ _ Hb). apply (IH (Datatypes.S k)); [|exact Hbody].
  intros j Hj. apply Hlt. lia.
Qed.

End LoopFacts.

(** ** Host operations *)

Section HostFacts.
Import Doc.
Local Open Scope doc_scope.

Lemma getLayer_ok d l L : store d !! l = Some L -> getLayer l d = (Normal L, d).
Proof. unfold getLayer. by intros ->. Qed.

Lemma modifyLayer_ok d l L f :
  store d !! l = Some L ->
  modifyLayer l f d = (Normal tt, withStore (alter f l (store d)) d).
Proof. unfold modifyLayer. by intros ->. Qed.

Lemma frame_getters_ok d l L :
  store d !! l = Some L ->
  frameX l d = (Normal (x (frame L)), d) /\
  frameY l d = (Normal (y (frame L)), d) /\
  frameWidth l d = (Normal (width (frame L)), d) /\
  frameHeight l d = (Normal (height (frame L)), d) /\
  getParentGroup l d = (Normal (parentGroup L), d).
Proof.
  intros H. unfold frameX, frameY, frameWidth, frameHeight, getParentGroup.
  by rewrite !(bind_normal _ _ _ _ _ (getLayer_ok d l L H)).
Qed.

Lemma length_removeAll ls : forall st, length (removeAll ls st) = length st.
Proof.
  unfold removeAll. induction ls as [|l ls IH]; intros st; simpl; [reflexivity|].
  by rewrite IH, length_alter.
Qed.

(** Removal only clears the parent of the layers it is applied to. *)
Lemma lookup_removeAll ls : forall st l,
  removeAll ls st !! l =
  (fun L => if bool_decide (l ∈ ls) then withParent None L else L) <$> st !! l.
Proof.
  unfold removeAll. induction ls as [|k ls IH]; intros st l; simpl.
  - by destruct (st !! l).
  - rewrite IH. destruct (decide (k = l)) as [->|Hne].
    + rewrite list_lookup_alter_eq. destruct (st !! l) as [L|]; simpl; [|reflexivity].
      rewrite (bool_decide_eq_true_2 (l ∈ l :: ls)) by left.
      by destruct (bool_decide (l ∈ ls)).
    + rewrite list_lookup_alter_ne by exact Hne.
      destruct (st !! l) as [L|]; simpl; [|reflexivity].
      destruct (decide (l ∈ ls)) as [Hin|Hnin].
      * rewrite !bool_decide_eq_true_2; [reflexivity|by right|exact Hin].
      * rewrite !bool_decide_eq_false_2; [reflexivity| |exact Hnin].
        intros [?|?]%elem_of_cons; [congruence|contradiction].
Qed.

Lemma forEach_removeFromParent ls : forall d,
  (forall l, l ∈ ls -> l < length (store d)) ->
  forEach ls removeFromParent d = (Normal tt, withStore (removeAll ls (store d)) d).
Proof.
  induction ls as [|l ls IH]; intros d Hin; simpl.
  - by destruct d.
  - destruct (lookup_lt_is_Some_2 (store d) l) as [L HL]; [apply Hin; left|].
    unfold removeFromParent at 1.
    rewrite (bind_normal _ _ _ _ _ (modifyLayer_ok d l L _ HL)).
    rewrite IH; [reflexivity|].
    intros k Hk. simpl. rewrite length_alter. apply Hin. by right.
Qed.

(** The scan of [createGrid] is the scan on plain data. *)
Lemma anchorScan_scanStep d ls candidates :
  mapM (positionOf d) ls = Some candidates ->
  forall st, anchorScan ls st d = (Normal (foldl scanStep st candidates), d).
Proof.
  intros Hm%mapM_Some.
  induction Hm as [|l c ls cs Hlc _ IH]; intros st; [reflexivity|].
  unfold positionOf in Hlc.
  destruct (store d !! l) as [L|] eqn:HL; [|discriminate]. injection Hlc as <-.
  destruct (frame_getters_ok d l L HL) as (Hx & Hy & _).
  assert (anchorStep l st d = (Normal (scanStep st (l, x (frame L), y (frame L))), d)) as Hs.
  { unfold anchorStep, scanStep, replaces. destruct st as [[a bx] by_].
    rewrite (bind_normal _ _ _ _ _ Hx), (bind_normal _ _ _ _ _ Hy).
    by destruct (_ || _). }
  simpl. rewrite (bind_normal _ _ _ _ _ Hs). apply IH.
Qed.

(** Without a parent group the anchor has no artboard and no page
    above it either. *)
Lemma ancestorOfClass_orphan fuel st cls l L :
  st !! l = Some L -> parentGroup L = None -> ancestorOfClass fuel st cls l = None.
Proof. intros HL HP. destruct fuel; simpl; [reflexivity|]. by rewrite HL; simpl; rewrite HP. Qed.

End HostFacts.

(** ** The grid loops *)

Section GridFacts.
Import Doc.
Local Open Scope doc_scope.

Lemma alter_last {A} (f : A -> A) (l : list A) (a : A) :
  alter f (length l) (l ++ [a]) = l ++ [f a].
Proof.
  replace (length l) with (length l + 0) by lia. by rewrite alter_app_r.
Qed.

Lemma lookup_last {A} (l : list A) (a : A) : (l ++ [a]) !! length l = Some a.
Proof. by rewrite list_lookup_middle. Qed.

Lemma columnBody_ok opt layer L1 P layerWidth startX py j acc d :
  store d !! layer = Some L1 ->
  columnBody opt layer (Some P) layerWidth startX py j acc d =
    (Normal (acc ++ [length (store d)]),
     withStore
       (store d ++
        [placed L1 P
           (startX + j * (layerWidth + toNumber (columnsMargin opt)))%float
           py]) d).
Proof.
  intros HL. unfold columnBody, copyLayer.
  rewrite (bind_normal _ _ _ _ _
             (bind_normal _ _ _ _ _ (getLayer_ok d layer L1 HL))).
  unfold addLayers, setX, setY.
  erewrite bind_normal; [|eapply modifyLayer_ok; apply lookup_last].
  simpl store. rewrite alter_last.
  erewrite bind_normal; [|eapply modifyLayer_ok; apply lookup_last].
  simpl store. rewrite alter_last.
  erewrite bind_normal; [|eapply modifyLayer_ok; apply lookup_last].
  simpl store. rewrite alter_last.
  reflexivity.
Qed.

Lemma columns_ok opt layer L1 P layerWidth startX py k : forall j0 acc d,
  store d !! layer = Some L1 ->
  runOn (map counter (seq j0 k)) (columnBody opt layer (Some P) layerWidth startX py) acc d =
    (Normal (acc ++ seq (length (store d)) k),
     withStore
       (store d ++
        map (fun j => placed L1 P
               (startX + counter j * (layerWidth + toNumber (columnsMargin opt)))%float
               py) (seq j0 k)) d).
Proof.
  induction k as [|k IH]; intros j0 acc d HL; simpl.
  - rewrite !app_nil_r. by destruct d.
  - rewrite (bind_normal _ _ _ _ _ (columnBody_ok opt layer L1 P _ _ _ (counter j0) acc d HL)).
    rewrite IH.
    + simpl. rewrite length_app. simpl.
      rewrite <- !app_assoc. simpl. by rewrite Nat.add_1_r.
    + simpl. rewrite lookup_app_l; [exact HL|]. by eapply lookup_lt_Some.
Qed.

Lemma rows_ok fuel opt layer L1 P layerWidth layerHeight startX startY columns k :
  countsExactly (columnsCount opt) columns = true ->
  columns < fuel ->
  forall i0 acc d,
  store d !! layer = Some L1 ->
  runOn (map counter (seq i0 k))
    (rowBody fuel opt layer (Some P) layerWidth layerHeight startX startY) acc d =
    (Normal (acc ++ seq (length (store d)) (k * columns)),
     withStore
       (store d ++
        flat_map
          (fun i => map (fun j => placed L1 P
               (startX + counter j * (layerWidth + toNumber (columnsMargin opt)))%float
               (startY + counter i * (layerHeight + toNumber (rowsMargin opt)))%float)
             (seq 0 columns))
          (seq i0 k)) d).
Proof.
  intros Hcols Hfuel.
  induction k as [|k IH]; intros i0 acc d HL; simpl.
  - rewrite !app_nil_r. by destruct d.
  - assert (rowBody fuel opt layer (Some P) layerWidth layerHeight startX startY
              (counter i0) acc d =
            runOn (map counter (seq 0 columns))
              (columnBody opt layer (Some P) layerWidth startX
                 (startY + counter i0 * (layerHeight + toNumber (rowsMargin opt)))%float)
              acc d) as Hrow.
    { unfold rowBody. by apply forCounter_runOn. }
    rewrite (columns_ok opt layer L1 P _ _ _ _ 0 acc d HL) in Hrow.
    rewrite (bind_normal _ _ _ _ _ Hrow).
    rewrite IH.
    + simpl. rewrite length_app, length_map, length_seq.
      rewrite <- !app_assoc. by rewrite <- seq_app.
    + simpl. rewrite lookup_app_l; [exact HL|]. by eapply lookup_lt_Some.
Qed.

Lemma length_gridLayers opt L P rows columns :
  length (gridLayers opt L P rows columns) = rows * columns.
Proof.
  unfold gridLayers. generalize 0 as s.
  induction rows as [|rows IH]; intros s; simpl; [reflexivity|].
  rewrite length_app, IH. unfold gridRow. by rewrite length_map, length_seq.
Qed.

(** Row-major order: the copy of row [i], column [j] is at position
    [i * columns + j]. *)
Lemma lookup_gridLayers opt L P rows columns i j :
  i < rows -> j < columns ->
  gridLayers opt L P rows columns !! (i * columns + j) = Some (gridCopy opt L P i j).
Proof.
  unfold gridLayers. intros Hi Hj.
  enough (forall s, flat_map (gridRow opt L P columns) (seq s rows) !! (i * columns + j)
                    = Some (gridCopy opt L P (s + i) j)) as H by apply (H 0).
  revert i Hi. induction rows as [|rows IH]; intros i Hi s; [lia|]. simpl.
  assert (length (gridRow opt L P columns s) = columns) as Hlen.
  { unfold gridRow. by rewrite length_map, length_seq. }
  destruct i as [|i].
  - rewrite lookup_app_l by (rewrite Hlen; lia). unfold gridRow.
    rewrite list_lookup_fmap, lookup_seq_lt by lia. simpl. by rewrite Nat.add_0_r.
  - rewrite lookup_app_r by (rewrite Hlen; lia). rewrite Hlen.
    replace (S i * columns + j - columns) with (i * columns + j) by lia.
    rewrite IH by lia. do 2 f_equal. lia.
Qed.

End GridFacts.

(** ** [createGrid] as a whole *)

Section CreateGridFacts.
Import Doc.
Local Open Scope doc_scope.

(** A specification that fails validation: one message, [undefined],
    and the layers and the selection are left as they were. *)
Lemma createGrid_rejected fuel selectedLayers opt d :
  accepted opt = false ->
  exists text,
    createGrid fuel selectedLayers opt d =
      (Normal None,
       {| store := store d; selection := selection d;
          messages := messages d ++ [text] |}).
Proof.
  unfold accepted, createGrid. intros Hrej.
  destruct (not_ (rowsCount opt) || ltZero (rowsCount opt)); [by eexists|].
  destruct (not_ (rowsMargin opt) && notIdenticalZero (rowsMargin opt)); [by eexists|].
  destruct (not_ (columnsCount opt) || ltZero (columnsCount opt)); [by eexists|].
  destruct (not_ (columnsMargin opt) && notIdenticalZero (columnsMargin opt)); [by eexists|].
  discriminate Hrej.
Qed.

Lemma positions_in_store d ls candidates :
  mapM (positionOf d) ls = Some candidates ->
  forall l, l ∈ ls -> l < length (store d).
Proof.
  intros Hm%mapM_Some l Hl.
  induction Hm as [|k c ks cs Hkc _ IH]; [by apply elem_of_nil in Hl|].
  apply elem_of_cons in Hl as [->|Hl]; [|by apply IH].
  unfold positionOf in Hkc. destruct (store d !! k) eqn:Hk; [|discriminate].
  by eapply lookup_lt_Some.
Qed.

Lemma placed_gridCopy opt (L : Layer) (b : bool) P i j :
  placed (if b then withParent None L else L) P
    (x (frame L) + counter j * (width (frame L) + toNumber (columnsMargin opt)))%float
    (y (frame L) + counter i * (height (frame L) + toNumber (rowsMargin opt)))%float
  = gridCopy opt L P i j.
Proof. by destruct b. Qed.

(** The run of [createGrid] up to the loops, on a specification that
    passes validation and a selection with anchor [layer]: the selected
    layers are out of the tree, and the loops start from the anchor's
    frame and the parent [layerParent] captured before the removal. *)
Lemma createGrid_upto_loops fuel selectedLayers opt d layer L :
  accepted opt = true ->
  anchorOf d selectedLayers = Some layer ->
  store d !! layer = Some L ->
  let d1 := withStore (removeAll selectedLayers (store d)) d in
  let L1 := if bool_decide (layer ∈ selectedLayers) then withParent None L else L in
  store d1 !! layer = Some L1 /\
  createGrid fuel selectedLayers opt d =
    (let* newSelectedLayers :=
       forCounter fuel (rowsCount opt)
         (rowBody fuel opt layer (parentGroup L) (width (frame L)) (height (frame L))
            (x (frame L)) (y (frame L))) [] in
     ret (Some newSelectedLayers)) d1.
Proof.
  intros Hacc Hanchor HL d1 L1.
  assert (store d1 !! layer = Some L1) as HL1.
  { unfold d1, L1. simpl. by rewrite lookup_removeAll, HL. }
  split; [exact HL1|].
  unfold accepted in Hacc. rewrite !andb_true_iff, !negb_true_iff in Hacc.
  destruct Hacc as [[[H1 H2] H3] H4].
  unfold createGrid. rewrite H1, H2, H3, H4.
  unfold anchorOf in Hanchor.
  destruct (first selectedLayers) as [layer0|]; [|discriminate]. simpl in Hanchor.
  destruct (positionOf d layer0) as [start|] eqn:Hstart; [|discriminate]. simpl in Hanchor.
  destruct (mapM (positionOf d) selectedLayers) as [candidates|] eqn:Hcs; [|discriminate].
  injection Hanchor as Hanchor.
  unfold positionOf in Hstart.
  destruct (store d !! layer0) as [L0|] eqn:HL0; [|discriminate]. injection Hstart as <-.
  destruct (frame_getters_ok d layer0 L0 HL0) as (Hx0 & Hy0 & _).
  rewrite (bind_normal _ _ _ _ _ Hx0), (bind_normal _ _ _ _ _ Hy0).
  rewrite (bind_normal _ _ _ _ _ (anchorScan_scanStep d _ _ Hcs _)).
  destruct (foldl scanStep _ candidates) as [[layer' bx] by_]. simpl in Hanchor. subst layer'.
  destruct (frame_getters_ok d layer L HL) as (_ & _ & Hw & Hh & Hp).
  rewrite (bind_normal _ _ _ _ _ Hw), (bind_normal _ _ _ _ _ Hh), (bind_normal _ _ _ _ _ Hp).
  assert ((let* layerParent :=
             match parentGroup L with
             | Some _ => ret (parentGroup L)
             | None => getParentArtboard layer
             end in
           let* layerParent0 :=
             match layerParent with
             | Some _ => ret layerParent
             | None => getParentPage layer
             end in
           ret layerParent0) d = (Normal (parentGroup L), d)) as Hparent.
  { destruct (parentGroup L) as [P|] eqn:HP; [reflexivity|].
    assert (getParentArtboard layer d = (Normal None, d)) as Ha.
    { unfold getParentArtboard. rewrite (bind_normal _ _ _ _ _ (getLayer_ok d layer L HL)).
      by rewrite (ancestorOfClass_orphan _ _ _ _ L HL HP). }
    assert (getParentPage layer d = (Normal None, d)) as Hg.
    { unfold getParentPage. rewrite (bind_normal _ _ _ _ _ (getLayer_ok d layer L HL)).
      by rewrite (ancestorOfClass_orphan _ _ _ _ L HL HP). }
    by rewrite (bind_normal _ _ _ _ _ Ha), (bind_normal _ _ _ _ _ Hg). }
  assert (forall (k : option nat -> M (option (list nat))),
            (let* layerParent :=
               match parentGroup L with
               | Some _ => ret (parentGroup L)
               | None => getParentArtboard layer
               end in
             let* layerParent0 :=
               match layerParent with
               | Some _ => ret layerParent
               | None => getParentPage layer
               end in
             k layerParent0) d = k (parentGroup L) d) as Hpar.
  { intros k. unfold bind in Hparent |- *.
    destruct (match parentGroup L with
              | Some _ => ret (parentGroup L)
              | None => getParentArtboard layer
              end d) as [[p| |] dp]; try discriminate Hparent.
    destruct (match p with
              | Some _ => ret p
              | None => getParentPage layer
              end dp) as [[p'| |] dp']; try discriminate Hparent.
    by injection Hparent as -> ->. }
  rewrite Hpar.
  rewrite (bind_normal _ _ _ _ _
             (forEach_removeFromParent _ d (positions_in_store d _ _ Hcs))).
  fold d1.
  destruct (frame_getters_ok d1 layer _ HL1) as (Hx1 & Hy1 & _).
  rewrite (bind_normal _ _ _ _ _ Hx1), (bind_normal _ _ _ _ _ Hy1).
  unfold L1. by destruct (bool_decide _).
Qed.

(** A specification that passes validation, on a selection whose
    anchor [layer] sits in a group [P], with loops that run [rows] and
    [columns] times: the selected layers are taken out of the tree, and
    the copies of the anchor are appended to the store row by row, their
    handles returned in that order. *)
Lemma createGrid_accepted fuel selectedLayers opt d layer L P rows columns :
  accepted opt = true ->
  anchorOf d selectedLayers = Some layer ->
  store d !! layer = Some L ->
  parentGroup L = Some P ->
  countsExactly (rowsCount opt) rows = true ->
  countsExactly (columnsCount opt) columns = true ->
  rows < fuel -> columns < fuel ->
  createGrid fuel selectedLayers opt d =
    (Normal (Some (seq (length (store d)) (rows * columns))),
     withStore (removeAll selectedLayers (store d) ++ gridLayers opt L P rows columns) d).
Proof.
  intros Hacc Hanchor HL HP Hrows Hcols Hfr Hfc.
  destruct (createGrid_upto_loops fuel selectedLayers opt d layer L Hacc Hanchor HL)
    as [HL1 ->].
  rewrite HP.
  erewrite bind_normal.
  2:{ rewrite (forCounter_runOn _ _ rows) by assumption.
      apply (rows_ok fuel opt layer _ P _ _ _ _ columns rows Hcols Hfc 0 [] _ HL1). }
  unfold ret. simpl. rewrite length_removeAll.
  f_equal. unfold withStore. simpl. do 2 f_equal.
  unfold gridLayers.
  apply flat_map_ext. intros i. unfold gridRow. apply map_ext. intros j.
  apply placed_gridCopy.
Qed.

(** On an empty selection [selectedLayers[0]] is [undefined] and the
    call raises, before anything is changed. *)
Lemma createGrid_empty_selection fuel opt d :
  accepted opt = true -> createGrid fuel [] opt d = (TypeError, d).
Proof.
  intros Hacc. unfold accepted in Hacc. rewrite !andb_true_iff, !negb_true_iff in Hacc.
  destruct Hacc as [[[H1 H2] H3] H4].
  unfold createGrid. by rewrite H1, H2, H3, H4.
Qed.

Lemma scan_stays_or_moves start candidates :
  foldl scanStep start candidates = start \/ In (foldl scanStep start candidates) candidates.
Proof.
  revert start. induction candidates as [|c cs IH]; intros start; simpl; [by left|].
  destruct (IH (scanStep start c)) as [H|H]; [|by right; right].
  rewrite H. unfold scanStep. destruct (replaces c start); [right; by left|by left].
Qed.

(** Every non-empty selection of layers of the document has an anchor,
    and the anchor is one of the selected layers. *)
Lemma anchorOf_defined d selectedLayers :
  selectedLayers <> [] ->
  (forall l, l ∈ selectedLayers -> l < length (store d)) ->
  exists layer, anchorOf d selectedLayers = Some layer /\ layer ∈ selectedLayers.
Proof.
  intros Hne Hin.
  assert (forall ls, (forall l, l ∈ ls -> l < length (store d)) ->
            exists cs, mapM (positionOf d) ls = Some cs /\
                       forall c, In c cs -> c.1.1 ∈ ls) as Hpos.
  { induction ls as [|l ls IH]; intros Hls.
    - exists []. split; [reflexivity|]. intros c [].
    - destruct IH as (cs & Hcs & Hmem); [intros k Hk; apply Hls; by right|].
      destruct (lookup_lt_is_Some_2 (store d) l) as [L HL]; [apply Hls; left|].
      exists ((l, x (frame L), y (frame L)) :: cs). split.
      + apply mapM_Some. constructor; [unfold positionOf; by rewrite HL|by apply mapM_Some].
      + intros c [<-|Hc]; [left|right; by apply Hmem]. }
  destruct selectedLayers as [|layer0 rest]; [done|].
  destruct (Hpos _ Hin) as (cs & Hcs & Hmem).
  destruct (lookup_lt_is_Some_2 (store d) layer0) as [L0 HL0]; [apply Hin; left|].
  assert (positionOf d layer0 = Some (layer0, x (frame L0), y (frame L0))) as Hstart.
  { unfold positionOf. by rewrite HL0. }
  unfold anchorOf. cbn [first head mbind option_bind]. rewrite Hstart.
  cbn [mbind option_bind]. rewrite Hcs. cbn [mbind option_bind].
  eexists. split; [reflexivity|].
  destruct (scan_stays_or_moves (layer0, x (frame L0), y (frame L0)) cs) as [->|H].
  - left.
  - by apply Hmem.
Qed.

(** An anchor outside any group: all three parent lookups come back
    empty, and the first [addLayers] raises, after the selected layers
    have been taken out. *)
Lemma createGrid_orphan_anchor fuel selectedLayers opt d layer L :
  0 < fuel ->
  accepted opt = true ->
  anchorOf d selectedLayers = Some layer ->
  store d !! layer = Some L ->
  parentGroup L = None ->
  createGrid fuel selectedLayers opt d =
    (TypeError, withStore (removeAll selectedLayers (store d) ++ [withParent None L]) d).
Proof.
  intros Hfuel Hacc Hanchor HL HP.
  destruct (createGrid_upto_loops fuel selectedLayers opt d layer L Hacc Hanchor HL)
    as [HL1 ->].
  apply accepted_iff in Hacc as (r & rm & c & cm & -> & Hr & _ & Hc & _).
  rewrite HP. cbn [rowsCount columnsCount].
  destruct fuel as [|fuel]; [lia|].
  unfold bind at 1. unfold forCounter at 1. cbn [forLoop].
  unfold counterLt at 1. cbn [toNumber]. rewrite Hr.
  unfold bind at 1. unfold rowBody at 1. cbn [columnsCount]. unfold forCounter at 1.
  cbn [forLoop]. unfold counterLt at 1. cbn [toNumber]. rewrite Hc.
  unfold bind at 1. unfold columnBody at 1.
  unfold copyLayer. rewrite (bind_normal _ _ _ _ _
                               (bind_normal _ _ _ _ _ (getLayer_ok _ layer _ HL1))).
  simpl. unfold withStore. simpl. do 3 f_equal.
  by destruct (bool_decide _).
Qed.

End CreateGridFacts.

(** ** Selection *)

Section SelectionFacts.
Import Doc.
Local Open Scope doc_scope.

Lemma forEach_deselect ls : forall d,
  forEach ls (fun layer => select_byExtendingSelection layer false false) d =
    (Normal tt, withSelection (deselectAll ls (selection d)) d).
Proof.
  induction ls as [|l ls IH]; intros d; simpl.
  - by destruct d.
  - unfold bind, select_byExtendingSelection at 1. simpl. by rewrite IH.
Qed.

Lemma forEach_select ls : forall d,
  forEach ls (fun layer => select_byExtendingSelection layer true true) d =
    (Normal tt, withSelection (selectEach ls (selection d)) d).
Proof.
  induction ls as [|l ls IH]; intros d; simpl.
  - by destruct d.
  - unfold bind, select_byExtendingSelection at 1. simpl. by rewrite IH.
Qed.

Lemma elem_of_deselectAll ls : forall sel l,
  l ∈ deselectAll ls sel <-> l ∈ sel /\ l ∉ ls.
Proof.
  unfold deselectAll. induction ls as [|k ls IH]; intros sel l; simpl.
  - rewrite elem_of_nil. tauto.
  - rewrite IH, list_elem_of_filter, elem_of_cons. tauto.
Qed.

(** Deselecting every selected layer leaves nothing selected. *)
Lemma deselectAll_everything ls sel :
  (forall l, l ∈ sel -> l ∈ ls) -> deselectAll ls sel = [].
Proof.
  intros Hall. destruct (deselectAll ls sel) as [|l rest] eqn:E; [reflexivity|].
  assert (l ∈ deselectAll ls sel) as Hl by (rewrite E; left).
  apply elem_of_deselectAll in Hl as [Hin Hnot]. destruct Hnot. by apply Hall.
Qed.

Lemma elem_of_selectEach ls : forall sel l,
  l ∈ selectEach ls sel <-> l ∈ sel \/ l ∈ ls.
Proof.
  unfold selectEach. induction ls as [|k ls IH]; intros sel l; simpl.
  - rewrite elem_of_nil. tauto.
  - rewrite IH, elem_of_cons. case_bool_decide as Hk.
    + split; [tauto|]. intros [?|[->|?]]; tauto.
    + rewrite elem_of_app, list_elem_of_singleton. tauto.
Qed.

(** Selecting distinct layers that are not selected yet appends them
    in the order given. *)
Lemma selectEach_fresh ls : forall sel,
  NoDup ls -> (forall l, l ∈ ls -> l ∉ sel) -> selectEach ls sel = sel ++ ls.
Proof.
  unfold selectEach. induction ls as [|k ls IH]; intros sel Hnd Hfresh; simpl.
  - by rewrite app_nil_r.
  - apply NoDup_cons in Hnd as [Hk Hnd].
    rewrite bool_decide_eq_false_2 by (apply Hfresh; left).
    rewrite IH; [by rewrite <- app_assoc|exact Hnd|].
    intros l Hl [Hin|Hin%list_elem_of_singleton]%elem_of_app.
    + apply (Hfresh l); [by right|exact Hin].
    + by subst.
Qed.

Lemma selectLayers_ok ls d :
  selectLayers ls d = (Normal tt, withSelection (selectEach ls []) d).
Proof.
  unfold selectLayers, getSelectedLayers. unfold bind at 1.
  rewrite (bind_normal _ _ _ _ _ (forEach_deselect _ d)), forEach_select. simpl.
  rewrite deselectAll_everything; [reflexivity|].
  intros l Hl. apply list_elem_of_In, in_rev. rewrite rev_involutive.
  by apply list_elem_of_In.
Qed.

End SelectionFacts.

(** ** Claims about [createGrid] and the selection *)

Section GridClaims.
Import Doc.
Local Open Scope doc_scope.

(** What a run of [createGrid] on an accepted specification leaves
    behind, spelled out per selected layer and per copy, when the test
    of the outer loop passes [rows] times and the test of the inner loop
    [columns] times. *)
Lemma createGrid_grid fuel selectedLayers opt d layer L P rows columns :
  accepted opt = true ->
  anchorOf d selectedLayers = Some layer ->
  store d !! layer = Some L ->
  parentGroup L = Some P ->
  countsExactly (rowsCount opt) rows = true ->
  countsExactly (columnsCount opt) columns = true ->
  rows < fuel -> columns < fuel ->
  exists copies d',
    createGrid fuel selectedLayers opt d = (Normal (Some copies), d') /\
    length copies = rows * columns /\
    messages d' = messages d /\
    (forall l, l ∈ selectedLayers -> detached d' l) /\
    (forall i j, i < rows -> j < columns ->
       copies !! (i * columns + j) = Some (length (store d) + (i * columns + j)) /\
       store d' !! (length (store d) + (i * columns + j)) = Some (gridCopy opt L P i j)).
Proof.
  intros Hacc Hanchor HL HP Hrows Hcols Hfr Hfc.
  eexists _, _. split; [by apply (createGrid_accepted _ _ _ _ layer L P rows columns)|].
  split; [by rewrite length_seq|]. split; [reflexivity|]. split.
  - intros l Hl. unfold detached. simpl.
    assert (l < length (store d)) as Hlt.
    { unfold anchorOf in Hanchor.
      destruct (first selectedLayers); [|discriminate]. simpl in Hanchor.
      destruct (positionOf d _); [|discriminate]. simpl in Hanchor.
      destruct (mapM (positionOf d) selectedLayers) eqn:Hcs; [|discriminate].
      by eapply positions_in_store. }
    destruct (lookup_lt_is_Some_2 _ _ Hlt) as [Ll HLl].
    rewrite lookup_app_l by (by rewrite length_removeAll).
    rewrite lookup_removeAll, HLl. simpl.
    rewrite bool_decide_eq_true_2 by exact Hl. by eexists.
  - intros i j Hi Hj.
    assert (i * columns + j < rows * columns) as Hidx by nia.
    split; [by apply lookup_seq_lt|]. simpl.
    rewrite lookup_app_r by (rewrite length_removeAll; lia).
    rewrite length_removeAll.
    replace (length (store d) + (i * columns + j) - length (store d))
      with (i * columns + j) by lia.
    by apply lookup_gridLayers.
Qed.

(** A loop whose body runs at all has a bound above zero. *)
Lemma countsExactly_positive bound n :
  countsExactly bound n = true -> 0 < n -> (0 <? toNumber bound)%float = true.
Proof.
  intros [Hlt _]%countsExactly_spec Hn. exact (Hlt 0 Hn).
Qed.

(** Doubles count every whole number of this range exactly: the loop
    with the bound [n] runs [n] times. *)
Lemma whole_countsExactly n : n <= 1000 -> countsExactly (whole n) n = true.
Proof.
  intros Hn.
  assert (forallb (fun k => countsExactly (whole k) k) (seq 0 1001) = true) as Hall
    by (vm_compute; reflexivity).
  rewrite forallb_forall in Hall. apply Hall. apply in_seq. lia.
Qed.

(** The first two values of the counter. *)
Lemma counter_1 : counter 1 = 1%float.
Proof. reflexivity. Qed.

(** A bound strictly between 0 and 1: the test passes for the counter
    0 and fails for the counter 1. *)
Lemma countsExactly_fraction q :
  (0 <? q)%float = true -> (q <? 1)%float = true -> countsExactly (JNum q) 1 = true.
Proof.
  intros Hpos Hlt. apply countsExactly_spec. split.
  - intros k Hk. assert (k = 0) as -> by lia. exact Hpos.
  - unfold counterLt. rewrite counter_1. simpl. by apply float_lt_antisym.
Qed.

(** A computation whose continuation never ends with [undefined] does
    not end with [undefined]. *)
Lemma bind_not_none {A B} (m : M A) (k : A -> M (option B)) d :
  (forall a d', (k a d').1 <> Normal None) -> (bind m k d).1 <> Normal None.
Proof.
  intros Hk. unfold bind. destruct (m d) as [[a| |] d']; [apply Hk|discriminate|discriminate].
Qed.

(** Once the four checks have passed there is no bare [return] left:
    whatever the selection and however long the loops run, the call does
    not end with [undefined]. *)
Lemma accepted_never_rejects fuel selectedLayers opt d :
  accepted opt = true -> ~ rejects fuel selectedLayers opt d.
Proof.
  intros Hacc. unfold accepted in Hacc. rewrite !andb_true_iff, !negb_true_iff in Hacc.
  destruct Hacc as [[[H1 H2] H3] H4].
  unfold rejects, createGrid. rewrite H1, H2, H3, H4.
  destruct (first selectedLayers) as [layer0|]; [|discriminate].
  apply bind_not_none. intros smallestX d1.
  apply bind_not_none. intros smallestY d2.
  apply bind_not_none. intros [[layer bx] by_] d3.
  apply bind_not_none. intros layerWidth d4.
  apply bind_not_none. intros layerHeight d5.
  apply bind_not_none. intros p1 d6.
  apply bind_not_none. intros p2 d7.
  apply bind_not_none. intros p3 d8.
  apply bind_not_none. intros [] d9.
  apply bind_not_none. intros startX d10.
  apply bind_not_none. intros startY d11.
  apply bind_not_none. intros copies d12.
  discriminate.
Qed.

(** C1: a valid specification with whole counts [rows] and [columns]
    that doubles count exactly, and margins that are numbers, on a
    non-empty selection of layers of the document whose anchor [layer]
    sits in a parent [P].  [createGrid] returns, within any number of
    steps above the counts, [rows * columns] new layers, whatever the
    size of the selection; every selected layer is out of the tree; the
    layer returned at position [i * columns + j] is a duplicate of the
    anchor, inserted in [P], at
    x = anchorX + j * (anchorWidth + columnsMargin) and
    y = anchorY + i * (anchorHeight + rowsMargin), sums and products
    being those of doubles. *)
Theorem C1_createGrid_replaces_selection_by_grid
    (fuel : nat) (selectedLayers : list nat) (d : Document) (layer : nat) (L : Layer)
    (P : nat) (rows columns : nat) (rowsMargin columnsMargin : float) :
  0 < rows -> 0 < columns ->
  countsExactly (whole rows) rows = true ->
  countsExactly (whole columns) columns = true ->
  is_nan rowsMargin = false -> is_nan columnsMargin = false ->
  rows < fuel -> columns < fuel ->
  anchorOf d selectedLayers = Some layer ->
  store d !! layer = Some L ->
  parentGroup L = Some P ->
  let opt := {| Doc.rowsCount := whole rows; Doc.rowsMargin := JNum rowsMargin;
                Doc.columnsCount := whole columns; Doc.columnsMargin := JNum columnsMargin |} in
  exists copies d',
    createGrid fuel selectedLayers opt d = (Normal (Some copies), d') /\
    length copies = rows * columns /\
    (forall l, l ∈ selectedLayers -> detached d' l) /\
    (forall i j, i < rows -> j < columns ->
       exists k C,
         copies !! (i * columns + j) = Some k /\
         length (store d) <= k /\
         store d' !! k = Some C /\
         name C = name L /\ className C = className L /\
         width (frame C) = width (frame L) /\ height (frame C) = height (frame L) /\
         parentGroup C = Some P /\
         x (frame C) =
           (x (frame L) + counter j * (width (frame L) + columnsMargin))%float /\
         y (frame C) =
           (y (frame L) + counter i * (height (frame L) + rowsMargin))%float).
Proof.
  intros Hr Hc Hrows Hcols Hrm Hcm Hfr Hfc Hanchor HL HP opt.
  destruct (createGrid_grid fuel selectedLayers opt d layer L P rows columns) as
    (copies & d' & Hrun & Hlen & _ & Hdet & Hcopies); try assumption.
  { apply accepted_numbers; try assumption.
    - exact (countsExactly_positive _ _ Hrows Hr).
    - exact (countsExactly_positive _ _ Hcols Hc). }
  exists copies, d'. repeat split; try assumption.
  intros i j Hi Hj. destruct (Hcopies i j Hi Hj) as [Hk HC].
  eexists _, _. split; [exact Hk|]. split; [lia|]. split; [exact HC|].
  repeat split.
Qed.

Lemma C1_createGrid_replaces_selection_by_grid_witness :
  exists copies d',
    createGrid 3 [1; 2] exampleOptions exampleDocument = (Normal (Some copies), d') /\
    length copies = 2 * 2.
Proof.
  destruct (C1_createGrid_replaces_selection_by_grid 3 [1; 2] exampleDocument 2 layerB 0
              2 2 5 5) as (copies & d' & Hrun & Hlen & _);
    [lia | lia | reflexivity | reflexivity | reflexivity | reflexivity | lia | lia
    | reflexivity | reflexivity | reflexivity |].
  exists copies, d'. split; [exact Hrun | exact Hlen].
Defined.

(** The positions are those of doubles, not of exact arithmetic: next
    to an anchor at 2^53 that is one unit wide, with no margin, the copy
    of column 1 lands on the anchor's own x, 2^53 + 1 not being a
    double. *)
Lemma createGrid_rounds_positions :
  exists d',
    createGrid 3 [1] {| rowsCount := JNum 1; rowsMargin := JNum 0;
                        columnsCount := JNum 2; columnsMargin := JNum 0 |} farDocument
      = (Normal (Some [2; 3]), d') /\
    positionsOf d' [2; 3] =
      [Some (9007199254740992, 0); Some (9007199254740992, 0)]%float.
Proof.
  exists (createGrid 3 [1] {| rowsCount := JNum 1; rowsMargin := JNum 0;
                              columnsCount := JNum 2; columnsMargin := JNum 0 |}
            farDocument).2.
  split; vm_compute; reflexivity.
Qed.

(** A rows count of [Infinity] passes validation, and the outer loop
    is still running after fifty evaluations of its test. *)
Lemma createGrid_endless_rows :
  accepted endlessOptions = true /\
  (createGrid 50 [1; 2] endlessOptions exampleDocument).1 = OutOfFuel.
Proof. split; vm_compute; reflexivity. Qed.

(** C5: a rows count or a columns count that is zero or negative, or
    a margin that is absent, fails validation, while a margin of
    exactly 0 passes and the grid is made.  Every validation failure
    shows one message and returns [undefined]; the layers and the
    selection are untouched. *)
Theorem C5_validation_failure_changes_nothing :
  (forall opt,
     (exists q, rowsCount opt = JNum q /\ (q <=? 0)%float = true) \/
     (exists q, columnsCount opt = JNum q /\ (q <=? 0)%float = true) \/
     rowsMargin opt = JUndefined \/ columnsMargin opt = JUndefined ->
     accepted opt = false) /\
  (forall fuel selectedLayers opt d,
     accepted opt = false ->
     exists text,
       createGrid fuel selectedLayers opt d =
         (Normal None,
          {| store := store d; selection := selection d;
             messages := messages d ++ [text] |})) /\
  (forall r c,
     (0 <? r)%float = true -> (0 <? c)%float = true ->
     let opt := {| rowsCount := JNum r; rowsMargin := JNum 0;
                   columnsCount := JNum c; columnsMargin := JNum 0 |} in
     accepted opt = true /\
     (forall fuel selectedLayers d, ~ rejects fuel selectedLayers opt d) /\
     (forall fuel selectedLayers d layer L P rows columns,
        countsExactly (JNum r) rows = true ->
        countsExactly (JNum c) columns = true ->
        rows < fuel -> columns < fuel ->
        anchorOf d selectedLayers = Some layer ->
        store d !! layer = Some L ->
        parentGroup L = Some P ->
        exists copies d',
          createGrid fuel selectedLayers opt d = (Normal (Some copies), d') /\
          length copies = rows * columns /\
          messages d' = messages d)).
Proof.
  split; [|split].
  - intros opt Hbad. apply not_true_iff_false.
    intros (r & rm & c & cm & -> & Hr & _ & Hc & _)%accepted_iff. simpl in Hbad.
    assert (forall q, (0 <? q)%float = true -> (q <=? 0)%float = true -> False) as Hno.
    { intros q Hpos Hle. rewrite float_le_cases in Hle.
      rewrite (float_lt_antisym _ _ Hpos) in Hle.
      destruct (float_lt_not_eq _ _ Hpos) as [_ Hne]. rewrite Hne in Hle. discriminate Hle. }
    destruct Hbad as [(q & [= <-] & Hq)|[(q & [= <-] & Hq)|[Hm|Hm]]];
      try discriminate Hm.
    + exact (Hno r Hr Hq).
    + exact (Hno c Hc Hq).
  - intros fuel selectedLayers opt d Hrej. by apply createGrid_rejected.
  - intros r c Hr Hc opt.
    assert (accepted opt = true) as Hacc by (by apply accepted_numbers).
    split; [exact Hacc|]. split.
    + intros fuel selectedLayers d. by apply accepted_never_rejects.
    + intros fuel selectedLayers d layer L P rows columns Hrows Hcols Hfr Hfc Hanchor HL HP.
      destruct (createGrid_grid fuel selectedLayers opt d layer L P rows columns)
        as (copies & d' & Hrun & Hlen & Hmsg & _); try assumption.
      by exists copies, d'.
Qed.

Lemma C5_validation_failure_changes_nothing_witness :
  exists text,
    createGrid 3 [1; 2] zeroRowsOptions exampleDocument =
      (Normal None,
       {| store := store exampleDocument; selection := selection exampleDocument;
          messages := messages exampleDocument ++ [text] |}).
Proof.
  destruct C5_validation_failure_changes_nothing as (Hbad & Hrej & _).
  apply Hrej. apply Hbad. left. exists 0%float. split; reflexivity.
Defined.

(** C6: the scan for the anchor goes through the selection once; a
    candidate replaces the current anchor exactly when its x is
    smaller or its y is smaller than the current best values, and both
    best values become the candidate's.  On the selection [A (10,50);
    B (0,0)] with two rows and two columns, margins 5 and an anchor of
    20 by 10, the anchor is B and the four copies are at (0,0), (25,0),
    (0,15) and (25,15). *)
Theorem C6_anchor_scan_and_example
    (d : Document) (selectedLayers : list nat) (candidates : list (nat * float * float))
    (start : nat * float * float) (fuel : nat) :
  mapM (positionOf d) selectedLayers = Some candidates ->
  2 < fuel ->
  anchorScan selectedLayers start d = (Normal (foldl scanStep start candidates), d) /\
  (forall l cx cy a bestX bestY,
     (scanStep (a, bestX, bestY) (l, cx, cy) = (l, cx, cy) <->
        (cx <? bestX)%float = true \/ (cy <? bestY)%float = true \/
        (l, cx, cy) = (a, bestX, bestY)) /\
     (~ ((cx <? bestX)%float = true \/ (cy <? bestY)%float = true) ->
        scanStep (a, bestX, bestY) (l, cx, cy) = (a, bestX, bestY))) /\
  anchorOf exampleDocument [1; 2] = Some 2 /\
  exists d',
    createGrid fuel [1; 2] exampleOptions exampleDocument
      = (Normal (Some [3; 4; 5; 6]), d') /\
    positionsOf d' [3; 4; 5; 6] =
      [Some (0, 0); Some (25, 0); Some (0, 15); Some (25, 15)]%float.
Proof.
  intros Hcs Hfuel. split; [by apply anchorScan_scanStep|]. split; [|split].
  - intros l cx cy a bestX bestY. unfold scanStep, replaces.
    destruct ((cx <? bestX)%float || (cy <? bestY)%float) eqn:E; cbv iota.
    + apply orb_true_iff in E. split.
      * split; [intros _; destruct E; auto | reflexivity].
      * intros Hn. contradiction.
    + apply orb_false_iff in E as [Ex Ey].
      split; [split|].
      * intros Heq. right. right. by symmetry.
      * intros [H|[H|Heq]]; [congruence|congruence|by symmetry].
      * reflexivity.
  - reflexivity.
  - eexists. split.
    + apply (createGrid_accepted fuel [1; 2] exampleOptions exampleDocument 2 layerB 0 2 2);
        try reflexivity; lia.
    + vm_compute. reflexivity.
Qed.

Lemma C6_anchor_scan_and_example_witness :
  anchorScan [1; 2] (1, 10%float, 50%float) exampleDocument =
    (Normal (2, 0%float, 0%float), exampleDocument).
Proof.
  refine (proj1 (C6_anchor_scan_and_example exampleDocument [1; 2]
                   [(1, 10%float, 50%float); (2, 0%float, 0%float)]
                   (1, 10%float, 50%float) 3 eq_refl _)).
  lia.
Defined.

(** C7: [getSelectedLayers] returns the host's selection reversed;
    handing that sequence, reversed again, to [selectLayers] restores
    the host's order; and [selectLayers] is not additive: afterwards
    exactly the layers given are selected, in the order given. *)
Theorem C7_selection_is_reversed_and_replaced (d : Document) :
  getSelectedLayers d = (Normal (rev (selection d)), d) /\
  (NoDup (selection d) ->
   forall returned d1,
     getSelectedLayers d = (Normal returned, d1) ->
     exists d2,
       selectLayers (rev returned) d1 = (Normal tt, d2) /\
       selection d2 = selection d /\ store d2 = store d) /\
  (forall layers,
     exists d',
       selectLayers layers d = (Normal tt, d') /\
       (forall l, l ∈ selection d' <-> l ∈ layers) /\
       (NoDup layers -> selection d' = layers)).
Proof.
  split; [reflexivity|]. split.
  - intros Hnd returned d1 [= <- <-]. rewrite rev_involutive.
    eexists. split; [apply selectLayers_ok|]. simpl. split; [|reflexivity].
    rewrite selectEach_fresh; [reflexivity|exact Hnd|].
    intros l _. apply not_elem_of_nil.
  - intros layers. eexists. split; [apply selectLayers_ok|]. simpl. split.
    + intros l. rewrite elem_of_selectEach, elem_of_nil. tauto.
    + intros Hnd. rewrite selectEach_fresh; [reflexivity|exact Hnd|].
      intros l _. apply not_elem_of_nil.
Qed.

Lemma C7_selection_is_reversed_and_replaced_witness :
  exists d2,
    selectLayers (rev [1; 2]) exampleDocument = (Normal tt, d2) /\
    selection d2 = [2; 1] /\ store d2 = store exampleDocument.
Proof.
  apply (proj1 (proj2 (C7_selection_is_reversed_and_replaced exampleDocument))).
  - apply NoDup_cons. split; [|apply NoDup_singleton].
    intros [=]%list_elem_of_singleton.
  - reflexivity.
Defined.

(** C9, as amended.  A margin is only checked for being there: a
    specification whose row margin or column margin is a negative
    number, with counts above zero, passes validation and is never
    rejected, whatever the selection; and when the counts are whole
    numbers that doubles count exactly, no message is shown and the
    grid of [rows * columns] copies is made with that spacing. *)
Theorem C9_negative_margins_are_accepted
    (rows columns : nat) (rowsMargin columnsMargin : float) :
  (rowsMargin <? 0)%float = true \/ (columnsMargin <? 0)%float = true ->
  is_nan rowsMargin = false -> is_nan columnsMargin = false ->
  0 < rows -> 0 < columns ->
  countsExactly (whole rows) rows = true ->
  countsExactly (whole columns) columns = true ->
  let opt := {| Doc.rowsCount := whole rows; Doc.rowsMargin := JNum rowsMargin;
                Doc.columnsCount := whole columns; Doc.columnsMargin := JNum columnsMargin |} in
  accepted opt = true /\
  (forall fuel selectedLayers d, ~ rejects fuel selectedLayers opt d) /\
  (forall fuel selectedLayers d layer L P,
     rows < fuel -> columns < fuel ->
     anchorOf d selectedLayers = Some layer ->
     store d !! layer = Some L ->
     parentGroup L = Some P ->
     exists copies d',
       createGrid fuel selectedLayers opt d = (Normal (Some copies), d') /\
       length copies = rows * columns /\
       messages d' = messages d /\
       (forall i j, i < rows -> j < columns ->
          store d' !! (length (store d) + (i * columns + j)) = Some (gridCopy opt L P i j))).
Proof.
  intros _ Hrm Hcm Hr Hc Hrows Hcols opt.
  assert (accepted opt = true) as Hacc.
  { apply accepted_numbers; try assumption.
    - exact (countsExactly_positive _ _ Hrows Hr).
    - exact (countsExactly_positive _ _ Hcols Hc). }
  split; [exact Hacc|]. split.
  - intros fuel selectedLayers d. by apply accepted_never_rejects.
  - intros fuel selectedLayers d layer L P Hfr Hfc Hanchor HL HP.
    destruct (createGrid_grid fuel selectedLayers opt d layer L P rows columns) as
      (copies & d' & Hrun & Hlen & Hmsg & _ & Hcopies); try assumption.
    exists copies, d'. repeat split; try assumption.
    intros i j Hi Hj. by apply Hcopies.
Qed.

Lemma C9_negative_margins_are_accepted_witness :
  ~ rejects 3 [1; 2] negativeMarginOptions exampleDocument.
Proof.
  refine (proj1 (proj2 (C9_negative_margins_are_accepted 2 2 (-5) 5 _ _ _ _ _ _ _))
            3 [1; 2] exampleDocument);
    [left; reflexivity | reflexivity | reflexivity | lia | lia | reflexivity | reflexivity].
Defined.

(** C9, as stated, fails: with a row margin of -5 the specification
    is not rejected; the four copies are made, 5 units apart
    vertically. *)
Lemma C9_counterexample_negative_margin_not_rejected :
  ~ rejects 3 [1; 2] negativeMarginOptions exampleDocument /\
  exists d',
    createGrid 3 [1; 2] negativeMarginOptions exampleDocument
      = (Normal (Some [3; 4; 5; 6]), d') /\
    positionsOf d' [3; 4; 5; 6] =
      [Some (0, 0); Some (25, 0); Some (0, 5); Some (25, 5)]%float.
Proof.
  split; [intros H; vm_compute in H; discriminate H|].
  exists (createGrid 3 [1; 2] negativeMarginOptions exampleDocument).2.
  split; vm_compute; reflexivity.
Qed.

(** C10: the check of a count lets through every number above zero,
    whole or not.  A rows count strictly between 0 and 1 passes; the
    test of the outer loop holds for the counter 0 and fails for the
    counter 1, so the loop runs once: the result is one row of [columns]
    copies. *)
Theorem C10_fractional_rows_count_gives_one_row
    (fuel : nat) (selectedLayers : list nat) (d : Document) (layer : nat) (L : Layer)
    (P : nat) (q c : float) (columns : nat) (rowsMargin columnsMargin : float) :
  (0 <? q)%float = true -> (q <? 1)%float = true ->
  0 < columns -> countsExactly (JNum c) columns = true ->
  is_nan rowsMargin = false -> is_nan columnsMargin = false ->
  1 < fuel -> columns < fuel ->
  anchorOf d selectedLayers = Some layer ->
  store d !! layer = Some L ->
  parentGroup L = Some P ->
  let opt := {| Doc.rowsCount := JNum q; Doc.rowsMargin := JNum rowsMargin;
                Doc.columnsCount := JNum c; Doc.columnsMargin := JNum columnsMargin |} in
  (forall v, not_ v || ltZero v = false <->
             exists q', v = JNum q' /\ (0 <? q')%float = true) /\
  accepted opt = true /\
  counterLt (counter 0) (JNum q) = true /\
  counterLt (counter 1) (JNum q) = false /\
  createGrid fuel selectedLayers opt d =
    (Normal (Some (seq (length (store d)) columns)),
     withStore (removeAll selectedLayers (store d) ++ gridRow opt L P columns 0) d).
Proof.
  intros Hpos Hlt Hc Hcols Hrm Hcm Hf1 Hfc Hanchor HL HP opt.
  assert (accepted opt = true) as Hacc.
  { apply accepted_numbers; try assumption.
    exact (countsExactly_positive _ _ Hcols Hc). }
  pose proof (countsExactly_fraction q Hpos Hlt) as Hrows.
  split; [exact count_check|]. split; [exact Hacc|].
  split; [exact Hpos|].
  split; [by apply countsExactly_spec in Hrows as [_ Hstop]|].
  rewrite (createGrid_accepted fuel selectedLayers opt d layer L P 1 columns
             Hacc Hanchor HL HP Hrows Hcols Hf1 Hfc).
  unfold gridLayers. simpl. by rewrite Nat.add_0_r, app_nil_r.
Qed.

Lemma C10_fractional_rows_count_gives_one_row_witness :
  createGrid 4 [1; 2] halfRowOptions exampleDocument =
    (Normal (Some [3; 4; 5]),
     withStore (removeAll [1; 2] (store exampleDocument)
                ++ gridRow halfRowOptions layerB 0 3 0) exampleDocument).
Proof.
  refine (proj2 (proj2 (proj2 (proj2
            (C10_fractional_rows_count_gives_one_row 4 [1; 2] exampleDocument 2 layerB 0
               0.5 3 3 5 5 _ _ _ _ _ _ _ _ _ _ _)))));
    [reflexivity | reflexivity | lia | reflexivity | reflexivity | reflexivity | lia | lia
    | reflexivity | reflexivity | reflexivity].
Defined.

End GridClaims.

(* ===================================================================== *)
(** * Further properties *)
(* ===================================================================== *)

(** ** Symbol resolution: precedence, absence, imports *)

Section SymbolExtras.
Import Symbols.

Variable matchesSymbol : SymbolMaster -> bool.
Variable matchesReference : SymbolReference -> bool.

Lemma first_filter_some {A} (f : A -> bool) (l : list A) (a : A) :
  In a l -> f a = true ->
  exists b, first (filter (fun x => f x = true) l) = Some b /\ In b l /\ f b = true.
Proof.
  induction l as [|c l IH]; intros Hin Hf; [destruct Hin|].
  rewrite filter_cons. destruct (decide (f c = true)) as [Hc|Hc].
  - exists c. split; [reflexivity|]. split; [by left|exact Hc].
  - destruct Hin as [->|Hin]; [contradiction|].
    destruct (IH Hin Hf) as (b & Hb & Hbin & Hbf). exists b. split; [exact Hb|].
    split; [by right|exact Hbf].
Qed.

Lemma first_filter_inv {A} (f : A -> bool) (l : list A) (b : A) :
  first (filter (fun x => f x = true) l) = Some b -> In b l /\ f b = true.
Proof.
  induction l as [|c l IH]; [discriminate|].
  rewrite filter_cons. destruct (decide (f c = true)) as [Hc|Hc].
  - intros [= <-]. split; [by left|exact Hc].
  - intros H. destruct (IH H) as [Hin Hf]. split; [by right|exact Hf].
Qed.

Lemma first_filter_none {A} (f : A -> bool) (l : list A) :
  (forall a, In a l -> f a = false) -> first (filter (fun x => f x = true) l) = None.
Proof.
  induction l as [|c l IH]; intros Hno; [reflexivity|].
  rewrite filter_cons. destruct (decide (f c = true)) as [Hc|Hc].
  - rewrite Hno in Hc by (by left). discriminate.
  - apply IH. intros a Ha. apply Hno. by right.
Qed.

(** A master of the document that satisfies the criterion wins over
    the libraries: the result is a matching master of the document, and
    no library is consulted, valid or not. *)
Theorem local_master_takes_precedence (h : Host) (m : SymbolMaster) :
  In m (documentSymbols h) ->
  matchesSymbol m = true ->
  exists m',
    findSymbolMaster matchesSymbol matchesReference h = (Object (sketchObject m'), []) /\
    In m' (documentSymbols h) /\ matchesSymbol m' = true.
Proof.
  intros Hin Hm. destruct (first_filter_some matchesSymbol _ m Hin Hm) as (b & Hb & Hbin & Hbf).
  exists b. unfold findSymbolMaster. rewrite Hb. by repeat split.
Qed.

(** Up to the first invalid library the loop works as on valid ones;
    there it leaves, and what it has consulted and imported so far is
    all that happened. *)
Lemma librariesLoop_invalid_log pre lib post : forall i symbolMaster log,
  Forall (fun l => valid l = true) pre ->
  valid lib = false ->
  librariesLoop matchesReference i (pre ++ lib :: post) symbolMaster log =
    (None, log ++ fullScan matchesReference i pre).
Proof.
  induction pre as [|p pre IH]; intros i sm log Hv Hlib; simpl.
  - by rewrite Hlib, app_nil_r.
  - inversion Hv as [|? ? Hp Hrest]; subst. rewrite Hp. simpl.
    destruct (first _); rewrite IH by assumption; f_equal; by rewrite <- !app_assoc.
Qed.

(** An invalid library ends the search with [undefined] for every
    criterion: the libraries in front of it have been consulted and
    imported from, the master found there is dropped, and the libraries
    behind it are never reached. *)
Theorem invalid_library_drops_the_result (h : Host) (pre post : list Library) (lib : Library) :
  noLocalMatch matchesSymbol h ->
  libraries h = pre ++ lib :: post ->
  Forall (fun l => valid l = true) pre ->
  valid lib = false ->
  findSymbolMaster matchesSymbol matchesReference h =
    (Undefined, fullScan matchesReference 0 pre).
Proof.
  intros Hno Hl Hv Hlib. unfold findSymbolMaster.
  rewrite (no_local_match_first matchesSymbol h Hno), Hl.
  by rewrite librariesLoop_invalid_log.
Qed.

Lemma lastMatch_no_match libs : forall acc,
  (forall lib, In lib libs -> forall r, In r (references lib) -> matchesReference r = false) ->
  lastMatch matchesReference libs acc = acc /\
  forall i, fullScan matchesReference i libs = map Consulted (seq i (length libs)).
Proof.
  induction libs as [|lib libs IH]; intros acc Hno; [by split|]. simpl.
  rewrite first_filter_none by (apply Hno; by left).
  destruct (IH acc) as [Hl Hs]; [intros l Hl; apply Hno; by right|].
  split; [exact Hl|]. intros i. by rewrite Hs.
Qed.

(** No master in the document and no matching reference in any of the
    valid libraries: the result is [null], every library has been
    consulted once, in order, and nothing has been imported. *)
Theorem symbol_not_found_is_null (h : Host) :
  noLocalMatch matchesSymbol h ->
  Forall (fun l => valid l = true) (libraries h) ->
  (forall lib, In lib (libraries h) ->
     forall r, In r (references lib) -> matchesReference r = false) ->
  findSymbolMaster matchesSymbol matchesReference h =
    (Null, map Consulted (seq 0 (length (libraries h)))).
Proof.
  intros Hno Hv Hnone.
  rewrite (findSymbolMaster_all_valid matchesSymbol matchesReference h Hno Hv).
  destruct (lastMatch_no_match (libraries h) None Hnone) as [-> Hs]. by rewrite Hs.
Qed.

Lemma librariesLoop_imports libs : forall i symbolMaster log k r,
  In (Imported k r) (librariesLoop matchesReference i libs symbolMaster log).2 ->
  In (Imported k r) log \/
  exists lib, i <= k /\ libs !! (k - i) = Some lib /\ valid lib = true /\
              first (filter (fun x => matchesReference x = true) (references lib)) = Some r.
Proof.
  induction libs as [|lib libs IH]; intros i sm log k r; simpl; [by left|].
  destruct (valid lib) eqn:Hvalid; simpl; [|by left].
  assert (forall j, S i <= j -> libs !! (j - S i) = (lib :: libs) !! (j - i)) as Hshift.
  { intros j Hj. replace (j - i) with (S (j - S i)) by lia. reflexivity. }
  destruct (first _) as [r0|] eqn:Hr0; intros H; apply IH in H.
  - destruct H as [H|(l & Hle & Hl & Hv & Hf)].
    + rewrite !in_app_iff in H. destruct H as [[H|[H|[]]]|[H|[]]];
        [by left|discriminate H|].
      injection H as <- <-. right. exists lib. rewrite Nat.sub_diag. by repeat split.
    + right. exists l. rewrite <- Hshift by exact Hle. repeat split; try assumption. lia.
  - destruct H as [H|(l & Hle & Hl & Hv & Hf)].
    + rewrite in_app_iff in H. destruct H as [H|[H|[]]]; [by left|discriminate H].
    + right. exists l. rewrite <- Hshift by exact Hle. repeat split; try assumption. lia.
Qed.

(** Whatever the libraries are, a reference is only ever imported from
    a valid library, and it is the first reference of that library that
    satisfies the criterion; when a master of the document matches,
    nothing is imported at all. *)
Theorem imports_are_first_matches_of_valid_libraries (h : Host) (k : nat) (r : SymbolReference) :
  In (Imported k r) (findSymbolMaster matchesSymbol matchesReference h).2 ->
  first (filter (fun s => matchesSymbol s = true) (documentSymbols h)) = None /\
  exists lib,
    libraries h !! k = Some lib /\ valid lib = true /\
    In r (references lib) /\ matchesReference r = true /\
    first (filter (fun x => matchesReference x = true) (references lib)) = Some r.
Proof.
  unfold findSymbolMaster. destruct (first _) as [m|]; [intros []|].
  intros H. split; [reflexivity|].
  assert (In (Imported k r) (librariesLoop matchesReference 0 (libraries h) None []).2) as H'.
  { destruct (librariesLoop _ _ _ _ _) as [[[sm|]|] log]; exact H. }
  apply librariesLoop_imports in H' as [[]|(lib & _ & Hl & Hv & Hf)].
  rewrite Nat.sub_0_r in Hl. exists lib.
  destruct (first_filter_inv matchesReference _ _ Hf) as [Hin Hm]. by repeat split.
Qed.

Lemma lastMatch_single pre lib post r acc :
  (forall l, In l pre -> forall x, In x (references l) -> matchesReference x = false) ->
  (forall l, In l post -> forall x, In x (references l) -> matchesReference x = false) ->
  first (filter (fun x => matchesReference x = true) (references lib)) = Some r ->
  lastMatch matchesReference (pre ++ lib :: post) acc = Some (refMaster r).
Proof.
  intros Hpre Hpost Hr. revert acc.
  induction pre as [|p pre IH]; intros acc; simpl.
  - rewrite Hr. by destruct (lastMatch_no_match post (Some (refMaster r)) Hpost) as [-> _].
  - rewrite first_filter_none by (apply Hpre; by left).
    apply IH. intros l Hl. apply Hpre. by right.
Qed.

(** When only one of the valid libraries holds a matching reference,
    the master returned is the one imported from that library, which is
    also the first match: on such registries the scan of all libraries
    and a search that stops at the first match return the same master. *)
Theorem single_matching_library_is_returned
    (h : Host) (pre post : list Library) (lib : Library) (r : SymbolReference) :
  noLocalMatch matchesSymbol h ->
  Forall (fun l => valid l = true) (libraries h) ->
  libraries h = pre ++ lib :: post ->
  (forall l, In l pre -> forall x, In x (references l) -> matchesReference x = false) ->
  (forall l, In l post -> forall x, In x (references l) -> matchesReference x = false) ->
  first (filter (fun x => matchesReference x = true) (references lib)) = Some r ->
  (findSymbolMaster matchesSymbol matchesReference h).1 = Object (sketchObject (refMaster r)) /\
  firstMatch matchesReference 0 (libraries h) = Some (length pre, r).
Proof.
  intros Hno Hv Hl Hpre Hpost Hr. split.
  - rewrite (findSymbolMaster_all_valid matchesSymbol matchesReference h Hno Hv). simpl.
    by rewrite Hl, (lastMatch_single pre lib post r None Hpre Hpost Hr).
  - assert (valid lib = true) as Hvl.
    { rewrite Hl in Hv. apply Forall_app in Hv as [_ Hv]. by inversion Hv. }
    rewrite Hl. clear Hl Hv.
    enough (forall i, firstMatch matchesReference i (pre ++ lib :: post)
                      = Some (i + length pre, r)) as H by apply (H 0).
    induction pre as [|p pre IH]; intros i; simpl.
    + rewrite Hvl, Hr. do 2 f_equal. lia.
    + rewrite first_filter_none by (apply Hpre; by left).
      destruct (valid p); rewrite IH by (intros l Hin; apply Hpre; by right);
        do 2 f_equal; lia.
Qed.

End SymbolExtras.

Section SymbolExtrasWitnesses.
Import Symbols.

Lemma local_master_takes_precedence_witness :
  exists m',
    findSymbolMasterWithName "Button" localAndLibrary = (Object (sketchObject m'), []) /\
    In m' (documentSymbols localAndLibrary) /\ String.eqb (symbolName m') "Button" = true.
Proof.
  apply (local_master_takes_precedence
           (fun s => String.eqb (symbolName s) "Button")
           (fun r => String.eqb (refName r) "Button") localAndLibrary buttonA);
    [left; reflexivity | reflexivity].
Defined.

Lemma invalid_library_drops_the_result_witness :
  findSymbolMasterWithName "Button" validThenInvalid =
    (Undefined, [Consulted 0; Imported 0 refA]).
Proof.
  apply (invalid_library_drops_the_result
           (fun s => String.eqb (symbolName s) "Button")
           (fun r => String.eqb (refName r) "Button") validThenInvalid
           [ {| valid := true; references := [refA] |} ]
           [ {| valid := true; references := [refB] |} ]
           {| valid := false; references := [] |}).
  - intros s [].
  - reflexivity.
  - repeat constructor.
  - reflexivity.
Defined.

Lemma symbol_not_found_is_null_witness :
  findSymbolMasterWithName "Icon" twoValidLibraries = (Null, [Consulted 0; Consulted 1]).
Proof.
  apply (symbol_not_found_is_null
           (fun s => String.eqb (symbolName s) "Icon")
           (fun r => String.eqb (refName r) "Icon") twoValidLibraries).
  - intros s [].
  - repeat constructor.
  - intros lib [<-|[<-|[]]] r [<-|[]]; reflexivity.
Defined.

Lemma imports_are_first_matches_of_valid_libraries_witness :
  exists lib,
    libraries twoValidLibraries !! 1 = Some lib /\ valid lib = true /\
    In refB (references lib) /\ String.eqb (refName refB) "Button" = true.
Proof.
  destruct (imports_are_first_matches_of_valid_libraries
              (fun s => String.eqb (symbolName s) "Button")
              (fun r => String.eqb (refName r) "Button") twoValidLibraries 1 refB)
    as (_ & lib & Hl & Hv & Hin & Hm & _).
  - right. right. right. left. reflexivity.
  - exists lib. by repeat split.
Defined.

Lemma single_matching_library_is_returned_witness :
  (findSymbolMasterWithId "B-2" distinctIds).1 = Object 2.
Proof.
  apply (single_matching_library_is_returned
           (fun s => String.eqb (symbolId s) "B-2")
           (fun r => String.eqb (refId r) "B-2") distinctIds
           [ {| valid := true; references := [refA] |} ] []
           {| valid := true; references := [refA; refC] |} refC).
  - intros s [].
  - repeat constructor.
  - reflexivity.
  - intros l [<-|[]] x [<-|[]]; reflexivity.
  - intros l [].
  - reflexivity.
Defined.

End SymbolExtrasWitnesses.

(** ** Layer queries: order, kinds, wildcard, several roots *)

Section QueryExtras.
Import Query.

Variable selfInString : MSLayer -> string -> option bool.

Lemma first_filter_iff {A} (f : A -> bool) (l : list A) (a : A) :
  first (List.filter f l) = Some a <->
  exists pre post, l = pre ++ a :: post /\ f a = true /\ forall q, In q pre -> f q = false.
Proof.
  induction l as [|c l IH]; simpl.
  - split; [discriminate|]. intros (pre & post & Heq & _). by destruct pre.
  - destruct (f c) eqn:Hc; simpl.
    + split.
      * intros [= <-]. exists [], l. by repeat split.
      * intros (pre & post & Heq & Ha & Hpre). destruct pre as [|p pre].
        -- by injection Heq as ->.
        -- injection Heq as -> _. rewrite Hpre in Hc by (by left). discriminate.
    + rewrite IH. split.
      * intros (pre & post & -> & Ha & Hpre). exists (c :: pre), post.
        repeat split; [exact Ha|]. intros q [<-|Hq]; [exact Hc|by apply Hpre].
      * intros (pre & post & Heq & Ha & Hpre). destruct pre as [|p pre].
        -- injection Heq as -> _. congruence.
        -- injection Heq as -> ->. exists pre, post. repeat split; [exact Ha|].
           intros q Hq. apply Hpre. by right.
Qed.

Lemma first_filter_none_iff {A} (f : A -> bool) (l : list A) :
  first (List.filter f l) = None <-> forall q, In q l -> f q = false.
Proof.
  induction l as [|c l IH]; simpl; [by split|].
  destruct (f c) eqn:Hc; simpl.
  - split; [discriminate|]. intros H. rewrite H in Hc by (by left). discriminate.
  - rewrite IH. split.
    + intros H q [<-|Hq]; [exact Hc|by apply H].
    + intros H q Hq. apply H. by right.
Qed.

Lemma filtered_ext cs cs' ls :
  (forall l, evalPredicate selfInString cs l = evalPredicate selfInString cs' l) ->
  filteredArrayUsingPredicate selfInString cs ls =
  filteredArrayUsingPredicate selfInString cs' ls.
Proof.
  intros Hext. induction ls as [|l ls IH]; simpl; [reflexivity|]. by rewrite Hext, IH.
Qed.

Lemma filtered_sound cs ls r :
  filteredArrayUsingPredicate selfInString cs ls = Some r ->
  r `sublist_of` ls /\ forall l, In l r -> evalPredicate selfInString cs l = Some true.
Proof.
  revert r. induction ls as [|l ls IH]; intros r; simpl.
  - intros [= <-]. split; [constructor|intros l []].
  - destruct (evalPredicate selfInString cs l) as [b|] eqn:Hl; [|discriminate]. simpl.
    destruct (filteredArrayUsingPredicate selfInString cs ls) as [rest|]; [|discriminate].
    simpl. intros [= <-]. destruct (IH rest eq_refl) as [Hsub Hall].
    destruct b.
    + split; [by constructor|]. intros k [<-|Hk]; [exact Hl|by apply Hall].
    + split; [by constructor|exact Hall].
Qed.

Lemma predicate_starts_with_name_test nameArg exactMatch type ex cs :
  (let '(formatRules, args) := formatRulesAndArgs nameArg exactMatch type ex in
   predicateWithFormat_argumentArray formatRules args) = Some cs ->
  exists cs', cs = CNameNotNull :: cs'.
Proof.
  unfold formatRulesAndArgs.
  destruct nameArg as [n|]; [destruct (truthy (Some n))|];
  (destruct type as [t|]; [destruct (truthy (Some t)); [destruct (String.eqb t SHAPE)|]|]);
  destruct ex as [ex|]; destruct exactMatch; simpl; intros [= <-]; by eexists.
Qed.

(** Whatever the arguments, a query that returns gives back layers of
    the enumeration it filtered, in the order of that enumeration and
    each at most as often as it occurs there; none of them has a [NULL]
    name. *)
Theorem query_returns_named_subsequence
    (nameArg : option string) (exactMatch : bool) (type : option string)
    (rootLayer : RootLayer) (subLayersOnly : bool) (ex : option (list MSLayer))
    (ls : list MSLayer) :
  findLayersInLayer selfInString nameArg exactMatch type rootLayer subLayersOnly ex
    = Returned ls ->
  ls `sublist_of` (if subLayersOnly then layers rootLayer else children rootLayer) /\
  forall l, In l ls -> name l <> None.
Proof.
  unfold findLayersInLayer.
  pose proof (predicate_starts_with_name_test nameArg exactMatch type ex) as Hstart.
  destruct (formatRulesAndArgs nameArg exactMatch type ex) as [formatRules args].
  destruct (predicateWithFormat_argumentArray formatRules args) as [cs|]; [|discriminate].
  destruct (Hstart cs eq_refl) as [cs' ->].
  destruct (filteredArrayUsingPredicate _ _ _) as [r|] eqn:Hr; [|discriminate].
  intros [= <-]. destruct (filtered_sound _ _ _ Hr) as [Hsub Hall].
  split; [exact Hsub|]. intros l Hl Hname. apply Hall in Hl. simpl in Hl.
  rewrite Hname in Hl. discriminate.
Qed.

(** A search without a kind always returns, and never a page, a bitmap,
    a symbol instance or a symbol master: every layer returned has one
    of the nine classes of the default rule. *)
Theorem unqualified_search_skips_pages_bitmaps_symbols
    (nameArg : option string) (exactMatch : bool) (rootLayer : RootLayer)
    (subLayersOnly : bool) (ex : option (list MSLayer)) :
  exists ls,
    findLayersInLayer selfInString nameArg exactMatch ANY rootLayer subLayersOnly ex
      = Returned ls /\
    forall l, In l ls ->
      In (className l) defaultClasses /\
      className l <> PAGE /\ className l <> BITMAP /\
      className l <> SYMBOL /\ className l <> SYMBOL_MASTER.
Proof.
  rewrite findLayersInLayer_selects by reflexivity.
  eexists. split; [reflexivity|]. intros l [_ Hsel]%filter_In.
  apply selects_iff in Hsel as (_ & Hkind & _).
  change (existsb (String.eqb (className l)) defaultClasses = true) in Hkind.
  assert (In (className l) defaultClasses) as Hin.
  { apply existsb_exists in Hkind as (c & Hc & Heq). apply String.eqb_eq in Heq. by subst. }
  split; [exact Hin|].
  repeat split; intros Heq; rewrite Heq in Hin; simpl in Hin;
    repeat (destruct Hin as [Hin|Hin]; [discriminate Hin|]); exact Hin.
Qed.

Lemma star_clause_is_void cs l :
  evalPredicate selfInString (CNameNotNull :: CNameLike (ArgString "*") :: cs) l =
  evalPredicate selfInString (CNameNotNull :: cs) l.
Proof. simpl. destruct (name l) as [n|]; [|reflexivity]. by rewrite like_any. Qed.

(** The name ["*"] with [exactMatch=false] filters like no name at all,
    for every kind, scope and exclusion; and (leaving aside the generic
    shape kind with an exclusion array) such a query returns exactly the
    layers of the enumeration that have a name, are of the kind asked
    for and are not excluded. *)
Theorem star_returns_all_named_layers
    (exactMatch : bool) (type : option string) (rootLayer : RootLayer)
    (subLayersOnly : bool) (ex : option (list MSLayer)) :
  findLayersInLayer selfInString (Some "*"%string) false type rootLayer subLayersOnly ex =
  findLayersInLayer selfInString None exactMatch type rootLayer subLayersOnly ex /\
  (shapeWithExclusion type ex = false ->
   exists ls,
     findLayersInLayer selfInString (Some "*"%string) false type rootLayer subLayersOnly ex
       = Returned ls /\
     forall l, In l ls <->
       In l (if subLayersOnly then layers rootLayer else children rootLayer) /\
       name l <> None /\ kindAllows type l = true /\ excluded ex l = false).
Proof.
  assert (findLayersInLayer selfInString (Some "*"%string) false type rootLayer subLayersOnly ex =
          findLayersInLayer selfInString None exactMatch type rootLayer subLayersOnly ex) as Heq.
  { unfold findLayersInLayer, formatRulesAndArgs.
    destruct type as [t|]; [destruct (truthy (Some t)); [destruct (String.eqb t SHAPE)|]|];
      destruct ex as [ex|]; simpl;
      by rewrite (filtered_ext _ _ _ (star_clause_is_void _)). }
  split; [exact Heq|]. intros Hok. rewrite Heq, findLayersInLayer_selects by exact Hok.
  eexists. split; [reflexivity|]. intros l. rewrite filter_In, selects_iff.
  split.
  - intros (Hin & (n & Hn & _) & Hk & He). repeat split; try assumption. congruence.
  - intros (Hin & Hn & Hk & He). repeat split; try assumption.
    destruct (name l) as [n|]; [by exists n|done].
Qed.

(** The singular variant returns the first layer of the enumeration
    that passes all the tests, and [undefined] exactly when none does
    (leaving aside the generic shape kind with an exclusion array). *)
Theorem findLayerInLayer_is_first_match
    (nameArg : option string) (exactMatch : bool) (type : option string)
    (rootLayer : RootLayer) (subLayersOnly : bool) (ex : option (list MSLayer)) :
  shapeWithExclusion type ex = false ->
  let candidates := if subLayersOnly then layers rootLayer else children rootLayer in
  let result :=
    findLayerInLayer selfInString nameArg exactMatch type rootLayer subLayersOnly ex in
  (forall l, result = Some (Some l) <->
     exists pre post, candidates = pre ++ l :: post /\
       selects nameArg exactMatch type ex l = true /\
       forall q, In q pre -> selects nameArg exactMatch type ex q = false) /\
  (result = Some None <->
     forall q, In q candidates -> selects nameArg exactMatch type ex q = false).
Proof.
  intros Hok candidates result. subst result. unfold findLayerInLayer.
  rewrite findLayersInLayer_selects by exact Hok. fold candidates. split.
  - intros l. rewrite <- first_filter_iff. split; congruence.
  - rewrite <- first_filter_none_iff. split; congruence.
Qed.

Lemma findLayersInLayers_from_acc nameArg exactMatch type subLayersOnly ex rootLayers :
  forall acc,
  findLayersInLayers_from selfInString acc nameArg exactMatch type rootLayers subLayersOnly ex =
  match findLayersInLayers selfInString nameArg exactMatch type rootLayers subLayersOnly ex with
  | Returned found => Returned (acc ++ found)
  | Raised => Raised
  end.
Proof.
  unfold findLayersInLayers.
  induction rootLayers as [|rootLayer rest IH]; intros acc; simpl.
  - by rewrite app_nil_r.
  - destruct (findLayersInLayer _ _ _ _ _ _ _) as [|result]; [reflexivity|].
    rewrite (IH (acc ++ result)), (IH result).
    destruct (findLayersInLayers_from _ _ _ _ _ _ _ _); [reflexivity|].
    by rewrite app_assoc.
Qed.

(** Several roots are searched one after the other and the results are
    put end to end, in the order of the roots, with no merging of
    duplicates: the query over [roots1 ++ roots2] is the query over
    [roots1] followed by the query over [roots2], and over a single root
    it is [findLayersInLayer].  An exception on any root is the outcome
    of the whole query. *)
Theorem findLayersInLayers_concatenates
    (nameArg : option string) (exactMatch : bool) (type : option string)
    (roots1 roots2 : list RootLayer) (rootLayer : RootLayer)
    (subLayersOnly : bool) (ex : option (list MSLayer)) :
  findLayersInLayers selfInString nameArg exactMatch type (roots1 ++ roots2) subLayersOnly ex =
    match findLayersInLayers selfInString nameArg exactMatch type roots1 subLayersOnly ex with
    | Raised => Raised
    | Returned found1 =>
        match findLayersInLayers selfInString nameArg exactMatch type roots2 subLayersOnly ex with
        | Raised => Raised
        | Returned found2 => Returned (found1 ++ found2)
        end
    end /\
  findLayersInLayers selfInString nameArg exactMatch type [rootLayer] subLayersOnly ex =
    findLayersInLayer selfInString nameArg exactMatch type rootLayer subLayersOnly ex.
Proof.
  split.
  - induction roots1 as [|r roots1 IH].
    + simpl. by destruct (findLayersInLayers _ _ _ _ roots2 _ _).
    + unfold findLayersInLayers at 1 2. simpl.
      destruct (findLayersInLayer _ _ _ _ r _ _) as [|result]; [reflexivity|].
      rewrite !findLayersInLayers_from_acc, IH.
      destruct (findLayersInLayers _ _ _ _ roots1 _ _); [reflexivity|].
      destruct (findLayersInLayers _ _ _ _ roots2 _ _); [reflexivity|].
      by rewrite app_assoc.
  - unfold findLayersInLayers. simpl. by destruct (findLayersInLayer _ _ _ _ _ _ _).
Qed.

End QueryExtras.

Section QueryFoundation.
Import Query.

(** With Foundation, the generic shape kind together with an exclusion
    array never yields a layer: the query raises as soon as one layer of
    the enumeration passes the name and kind tests, and returns the
    empty array otherwise, whatever the exclusion array holds. *)
Theorem shape_with_exclusion_raises_or_is_empty
    (nameArg : option string) (exactMatch : bool) (rootLayer : RootLayer)
    (subLayersOnly : bool) (ex : list MSLayer) :
  findLayersInLayer foundationSelfInString nameArg exactMatch (Some SHAPE) rootLayer
    subLayersOnly (Some ex) =
  if existsb (selects nameArg exactMatch (Some SHAPE) None)
       (if subLayersOnly then layers rootLayer else children rootLayer)
  then Raised else Returned [].
Proof. apply shape_with_exclusion_outcome. Qed.

End QueryFoundation.

Section QueryExtrasWitnesses.
Import Query.

Lemma query_returns_named_subsequence_witness :
  [rectM] `sublist_of` layers rootLM /\ forall l, In l [rectM] -> name l <> None.
Proof.
  apply (query_returns_named_subsequence foundationSelfInString (Some "a"%string) true
           (Some "MSRectangleShape"%string) rootLM true (Some [rectL]) [rectM]).
  reflexivity.
Defined.

Lemma star_returns_all_named_layers_witness :
  exists ls,
    findLayersInLayer foundationSelfInString (Some "*"%string) false ANY rootFoobar true None
      = Returned ls /\
    forall l, In l ls <->
      In l (layers rootFoobar) /\
      name l <> None /\ kindAllows ANY l = true /\ excluded None l = false.
Proof.
  exact (proj2 (star_returns_all_named_layers foundationSelfInString false ANY rootFoobar
                  true None) eq_refl).
Defined.

Lemma findLayerInLayer_is_first_match_witness :
  findLayerInLayer foundationSelfInString (Some "a"%string) true ANY rootLM true None
    = Some (Some rectL) <->
  exists pre post, layers rootLM = pre ++ rectL :: post /\
    selects (Some "a"%string) true ANY None rectL = true /\
    forall q, In q pre -> selects (Some "a"%string) true ANY None q = false.
Proof.
  exact (proj1 (findLayerInLayer_is_first_match foundationSelfInString (Some "a"%string) true
                  ANY rootLM true None eq_refl) rectL).
Defined.

End QueryExtrasWitnesses.

(** ** Pages *)

Section PageExtras.
Import Pages.
Local Open Scope string_scope.

Lemma startsWith_iff n : forall s, startsWith n s = true <-> exists post, s = n ++ post.
Proof.
  induction n as [|c n IH]; intros s; simpl.
  - split; [by exists s|done].
  - destruct s as [|d s].
    + split; [discriminate|]. intros (post & Heq). discriminate.
    + rewrite andb_true_iff, Ascii.eqb_eq, IH. split.
      * intros [-> (post & ->)]. by exists post.
      * intros (post & [= -> ->]). split; [reflexivity|by exists post].
Qed.

(** [indexOf] is above [-1] exactly when the text occurs. *)
Lemma indexOf_contains s n : (-1 <? indexOf s n)%Z = true <-> Query.contains n s.
Proof.
  unfold indexOf. unfold Query.contains.
  enough (forall i, (0 <= i)%Z ->
            (-1 <? indexOfFrom i n s)%Z = true <-> exists pre post, s = pre ++ n ++ post) as H
    by (apply H; lia).
  induction s as [|c s IH]; intros i Hi; simpl.
  - destruct (startsWith n "") eqn:Hs.
    + apply startsWith_iff in Hs as (post & Hpost). split; [|intros _; apply Z.ltb_lt; lia].
      intros _. by exists "", post.
    + split; [discriminate|]. intros (pre & post & Heq).
      apply not_true_iff_false in Hs. destruct Hs. apply startsWith_iff.
      destruct pre; [|discriminate]. by exists post.
  - destruct (startsWith n (String c s)) eqn:Hs.
    + apply startsWith_iff in Hs as (post & Hpost). split; [|intros _; apply Z.ltb_lt; lia].
      intros _. by exists "", post.
    + rewrite (IH (i + 1)%Z) by lia. split.
      * intros (pre & post & ->). by exists (String c pre), post.
      * intros (pre & post & Heq). destruct pre as [|d pre].
        -- apply not_true_iff_false in Hs. destruct Hs. apply startsWith_iff. by exists post.
        -- simpl in Heq. injection Heq as -> ->. by exists pre, post.
Qed.

Lemma findPageIn_filter pages name fullMatch :
  findPageIn pages name fullMatch = first (List.filter (pageMatches name fullMatch) pages).
Proof.
  induction pages as [|p pages IH]; simpl; [reflexivity|].
  unfold pageMatches at 1. destruct fullMatch.
  - by destruct (String.eqb _ _).
  - by destruct (_ <? _)%Z.
Qed.

Lemma pageMatches_iff name fullMatch p :
  pageMatches name fullMatch p = true <-> pageFits name fullMatch p.
Proof.
  unfold pageMatches, pageFits. destruct fullMatch.
  - apply String.eqb_eq.
  - apply indexOf_contains.
Qed.

(** [findPageWithName] returns the first page, in the order of the
    document, whose name is [name] (with [fullMatch]) or contains
    [name] (without); it returns [undefined] exactly when no page fits. *)
Theorem findPageWithName_is_first_fit (name : string) (fullMatch : bool) (doc : PagesDocument) :
  (forall p, findPageWithName name fullMatch doc = Some p <->
     exists pre post, pages doc = (pre ++ p :: post)%list /\
       pageFits name fullMatch p /\
       forall q, In q pre -> ~ pageFits name fullMatch q) /\
  (findPageWithName name fullMatch doc = None <->
     forall q, In q (pages doc) -> ~ pageFits name fullMatch q).
Proof.
  unfold findPageWithName. rewrite findPageIn_filter. split.
  - intros p. rewrite first_filter_iff. split.
    + intros (pre & post & Heq & Hp & Hpre). exists pre, post.
      split; [exact Heq|]. split; [by apply pageMatches_iff|].
      intros q Hq Hfit%pageMatches_iff. rewrite Hpre in Hfit by exact Hq. discriminate.
    + intros (pre & post & Heq & Hp & Hpre). exists pre, post.
      split; [exact Heq|]. split; [by apply pageMatches_iff|].
      intros q Hq. apply not_true_iff_false. rewrite pageMatches_iff. by apply Hpre.
  - rewrite first_filter_none_iff. split.
    + intros H q Hq Hfit%pageMatches_iff. rewrite H in Hfit by exact Hq. discriminate.
    + intros H q Hq. apply not_true_iff_false. rewrite pageMatches_iff. by apply H.
Qed.

(** Without [fullMatch] the empty name fits every page: the result is
    the first page of the document, whatever it is called. *)
Theorem findPageWithName_empty_name (doc : PagesDocument) :
  findPageWithName "" false doc = first (pages doc).
Proof.
  unfold findPageWithName. destruct (pages doc) as [|p rest]; [reflexivity|]. simpl.
  unfold indexOf. by destruct (pageName p).
Qed.

Variable blankName : string.

Lemma setName_fresh page name ps :
  (forall p, In p ps -> pageID p <> page) ->
  map (fun p => if Nat.eqb (pageID p) page
                then {| pageID := pageID p; pageName := name |} else p) ps = ps.
Proof.
  induction ps as [|p ps IH]; intros Hfresh; simpl; [reflexivity|].
  rewrite (proj2 (Nat.eqb_neq _ _) (Hfresh p (or_introl eq_refl))).
  rewrite IH; [reflexivity|]. intros q Hq. apply Hfresh. by right.
Qed.

Lemma addPage_result (name : string) (doc : PagesDocument) :
  wellFormed doc ->
  addPage blankName name doc =
    (nextID doc,
     {| pages := (pages doc ++ [{| pageID := nextID doc; pageName := name |}])%list;
        currentPage := currentPage doc;
        nextID := S (nextID doc) |}) /\
  wellFormed (addPage blankName name doc).2.
Proof.
  intros [Hnd Hlt].
  assert (addPage blankName name doc =
    (nextID doc,
     {| pages := (pages doc ++ [{| pageID := nextID doc; pageName := name |}])%list;
        currentPage := currentPage doc;
        nextID := S (nextID doc) |})) as Heq.
  { unfold addPage, addBlankPage, setName, setCurrentPage. simpl.
    rewrite map_app. simpl. rewrite Nat.eqb_refl.
    rewrite setName_fresh; [reflexivity|]. intros p Hp. apply Hlt in Hp. lia. }
  split; [exact Heq|]. rewrite Heq. unfold wellFormed. simpl. split.
  - rewrite map_app. simpl. apply NoDup_app. split; [exact Hnd|]. split.
    + intros i Hi [<-|[]]%list_elem_of_In. apply list_elem_of_In, in_map_iff in Hi as (p & Hid & Hp).
      apply Hlt in Hp. lia.
    + apply NoDup_singleton.
  - intros p [Hp|[<-|[]]]%in_app_iff; [apply Hlt in Hp; lia|simpl; lia].
Qed.

(** In a document whose page handles are distinct, [addPage] puts one
    new page with the given name behind the pages there were, which
    keep their names; the current page is the same as before, whatever
    page the host made current in between; and the handles stay
    distinct. *)
Theorem addPage_appends_and_keeps_current (name : string) (doc : PagesDocument) :
  wellFormed doc ->
  addPage blankName name doc =
    (nextID doc,
     {| pages := (pages doc ++ [{| pageID := nextID doc; pageName := name |}])%list;
        currentPage := currentPage doc;
        nextID := S (nextID doc) |}) /\
  wellFormed (addPage blankName name doc).2.
Proof. apply addPage_result. Qed.

Lemma findPageIn_app ps1 ps2 name fullMatch :
  findPageIn (ps1 ++ ps2)%list name fullMatch =
  match findPageIn ps1 name fullMatch with
  | Some p => Some p
  | None => findPageIn ps2 name fullMatch
  end.
Proof.
  induction ps1 as [|p ps1 IH]; simpl; [reflexivity|].
  destruct fullMatch.
  - by destruct (String.eqb _ _).
  - by destruct (_ <? _)%Z.
Qed.

(** After [addPage(name)] a search for exactly that name always finds a
    page of that name: the first older page called so when there is
    one, the new page otherwise. *)
Theorem addPage_then_findPageWithName (name : string) (doc : PagesDocument) :
  wellFormed doc ->
  exists p,
    findPageWithName name true (addPage blankName name doc).2 = Some p /\
    pageName p = name /\
    (findPageWithName name true doc = None -> pageID p = nextID doc) /\
    (forall q, findPageWithName name true doc = Some q -> p = q).
Proof.
  intros Hwf. destruct (addPage_result name doc Hwf) as [-> _].
  unfold findPageWithName. simpl. rewrite findPageIn_app. simpl. rewrite String.eqb_refl.
  destruct (findPageIn (pages doc) name true) as [p|] eqn:Hfind.
  - exists p. repeat split; [|discriminate|by intros q [= <-]].
    rewrite findPageIn_filter in Hfind.
    apply first_filter_iff in Hfind as (_ & _ & _ & Hp & _). by apply String.eqb_eq in Hp.
  - eexists. repeat split. discriminate.
Qed.

(** [removePage] takes the page out, keeps the other pages in their
    order, and puts back as current page the page that was current
    before the call, whichever page the host had moved to.  So when the
    page removed is another one, the current page is still a page of
    the document; and when the page removed is the current one itself,
    the document is left with a current page that is none of its
    pages. *)
Theorem removePage_restores_the_current_page (page : nat) (doc : PagesDocument) :
  let doc' := removePage page doc in
  pages doc' = List.filter (fun p => negb (Nat.eqb (pageID p) page)) (pages doc) /\
  currentPage doc' = currentPage doc /\
  (page <> currentPage doc ->
   forall c, In c (pages doc) -> pageID c = currentPage doc -> In c (pages doc')) /\
  (page = currentPage doc ->
   forall q, In q (pages doc') -> pageID q <> currentPage doc').
Proof.
  simpl. split; [reflexivity|]. split; [reflexivity|]. split.
  - intros Hne c Hc Hid.
    apply filter_In. split; [exact Hc|]. apply negb_true_iff, Nat.eqb_neq. congruence.
  - intros -> q [_ Hq]%filter_In. by apply negb_true_iff, Nat.eqb_neq in Hq.
Qed.

(** The host alone would have moved on to the first page that is
    left: after removing the current page 0 of the example, the host's
    current page is page 1, the one of [removePage] the page 0 that is
    gone. *)
Lemma removePage_example :
  currentPage (hostRemovePage 0 examplePages) = 1 /\
  currentPage (removePage 0 examplePages) = 0 /\
  map pageID (pages (removePage 0 examplePages)) = [1].
Proof. repeat split. Qed.

(** Removing the page that [addPage] has just made gives back the pages
    and the current page there were; only the handle is used up. *)
Theorem addPage_then_removePage (name : string) (doc : PagesDocument) :
  wellFormed doc ->
  removePage (addPage blankName name doc).1 (addPage blankName name doc).2 =
    {| pages := pages doc; currentPage := currentPage doc; nextID := S (nextID doc) |}.
Proof.
  intros Hwf. destruct (addPage_result name doc Hwf) as [-> _].
  destruct Hwf as [_ Hlt].
  unfold removePage, hostRemovePage, setCurrentPage. simpl. f_equal.
  rewrite List.filter_app. simpl. rewrite Nat.eqb_refl. simpl. rewrite app_nil_r.
  induction (pages doc) as [|p ps IH]; simpl; [reflexivity|].
  assert (pageID p <> nextID doc) as Hne by (specialize (Hlt p (or_introl eq_refl)); lia).
  rewrite (proj2 (Nat.eqb_neq _ _) Hne). simpl. f_equal. apply IH.
  intros q Hq. apply Hlt. by right.
Qed.

End PageExtras.

Section PageExtrasWitnesses.
Import Pages.

Lemma examplePages_wellFormed : wellFormed examplePages.
Proof.
  split.
  - simpl. apply NoDup_cons. split; [|apply NoDup_singleton].
    intros [=]%list_elem_of_singleton.
  - intros p [<-|[<-|[]]]; simpl; lia.
Defined.

Lemma addPage_appends_and_keeps_current_witness :
  addPage "Page" "Data" examplePages =
    (2, {| pages := pages examplePages ++ [{| pageID := 2; pageName := "Data" |}];
           currentPage := 0; nextID := 3 |}).
Proof.
  exact (proj1 (addPage_appends_and_keeps_current "Page" "Data" examplePages
                  examplePages_wellFormed)).
Defined.

Lemma addPage_then_findPageWithName_witness :
  exists p,
    findPageWithName "Data" true (addPage "Page" "Data" examplePages).2 = Some p /\
    pageName p = "Data"%string.
Proof.
  destruct (addPage_then_findPageWithName "Page" "Data" examplePages examplePages_wellFormed)
    as (p & Hfind & Hname & _).
  exists p. split; [exact Hfind | exact Hname].
Defined.

Lemma removePage_restores_the_current_page_witness :
  currentPage (removePage 0 examplePages) = 0 /\
  forall q, In q (pages (removePage 0 examplePages)) -> pageID q <> 0.
Proof.
  split; [exact (proj1 (proj2 (removePage_restores_the_current_page 0 examplePages)))|].
  exact (proj2 (proj2 (proj2 (removePage_restores_the_current_page 0 examplePages))) eq_refl).
Defined.

Lemma addPage_then_removePage_witness :
  removePage (addPage "Page" "Data" examplePages).1 (addPage "Page" "Data" examplePages).2 =
    {| pages := pages examplePages; currentPage := 0; nextID := 3 |}.
Proof.
  exact (addPage_then_removePage "Page" "Data" examplePages examplePages_wellFormed).
Defined.

End PageExtrasWitnesses.

(** ** The grid: counts, untouched layers, the anchor, failures *)

Section GridExtras.
Import Doc.
Local Open Scope doc_scope.

(** The number of times a loop runs is fixed by its bound. *)
Lemma countsExactly_unique bound n m :
  countsExactly bound n = true -> countsExactly bound m = true -> n = m.
Proof.
  intros [Hn Hn']%countsExactly_spec [Hm Hm']%countsExactly_spec.
  destruct (Nat.lt_trichotomy n m) as [Hlt|[Heq|Hgt]]; [|exact Heq|].
  - rewrite (Hm n Hlt) in Hn'. discriminate Hn'.
  - rewrite (Hn m Hgt) in Hm'. discriminate Hm'.
Qed.

(** Counts need not be whole: the outer loop runs as long as the test
    [i < rowsCount] passes on the counter values 0, 1, 2, ..., and the
    inner loop likewise.  When the tests pass [rows] and [columns] times
    and then fail, which no other numbers of times can do for the same
    counts, the grid has [rows] rows and [columns] columns, returned row
    by row, each copy at the place its row and column give it.  A rows
    count of 2.5 gives three rows. *)
Theorem createGrid_counts_by_the_loop_test
    (fuel : nat) (selectedLayers : list nat) (d : Document) (layer : nat) (L : Layer)
    (P : nat) (r rm c cm : float) (rows columns : nat) :
  0 < rows -> 0 < columns ->
  countsExactly (JNum r) rows = true ->
  countsExactly (JNum c) columns = true ->
  is_nan rm = false -> is_nan cm = false ->
  rows < fuel -> columns < fuel ->
  anchorOf d selectedLayers = Some layer ->
  store d !! layer = Some L ->
  parentGroup L = Some P ->
  let opt := {| rowsCount := JNum r; rowsMargin := JNum rm;
                columnsCount := JNum c; columnsMargin := JNum cm |} in
  (forall rows' columns',
     countsExactly (JNum r) rows' = true -> countsExactly (JNum c) columns' = true ->
     rows' = rows /\ columns' = columns) /\
  exists copies d',
    createGrid fuel selectedLayers opt d = (Normal (Some copies), d') /\
    length copies = rows * columns /\
    forall i j, i < rows -> j < columns ->
      copies !! (i * columns + j) = Some (length (store d) + (i * columns + j)) /\
      store d' !! (length (store d) + (i * columns + j)) = Some (gridCopy opt L P i j).
Proof.
  intros Hr Hc Hrows Hcols Hrm Hcm Hfr Hfc Hanchor HL HP opt. split.
  - intros rows' columns' Hrows' Hcols'.
    split; [exact (countsExactly_unique _ _ _ Hrows' Hrows)
           |exact (countsExactly_unique _ _ _ Hcols' Hcols)].
  - destruct (createGrid_grid fuel selectedLayers opt d layer L P rows columns) as
      (copies & d' & Hrun & Hlen & _ & _ & Hcopies); try assumption.
    { apply accepted_numbers; try assumption.
      - exact (countsExactly_positive _ _ Hrows Hr).
      - exact (countsExactly_positive _ _ Hcols Hc). }
    exists copies, d'. split; [exact Hrun|]. split; [exact Hlen|]. exact Hcopies.
Qed.

(** A run that makes the grid leaves every layer that was there where
    it was: the layers outside the selection are not touched at all,
    the selected ones only lose their parent, and the host's record of
    the selection and the messages shown are as before. *)
Theorem createGrid_keeps_existing_layers
    (fuel : nat) (selectedLayers : list nat) (opt : Options) (d : Document)
    (layer : nat) (L : Layer) (P : nat) (rows columns : nat) :
  accepted opt = true ->
  countsExactly (rowsCount opt) rows = true ->
  countsExactly (columnsCount opt) columns = true ->
  rows < fuel -> columns < fuel ->
  anchorOf d selectedLayers = Some layer ->
  store d !! layer = Some L ->
  parentGroup L = Some P ->
  exists copies d',
    createGrid fuel selectedLayers opt d = (Normal (Some copies), d') /\
    selection d' = selection d /\ messages d' = messages d /\
    forall l L0, store d !! l = Some L0 ->
      store d' !! l = Some (if bool_decide (l ∈ selectedLayers) then withParent None L0 else L0).
Proof.
  intros Hacc Hrows Hcols Hfr Hfc Hanchor HL HP.
  eexists _, _.
  split; [by apply (createGrid_accepted _ _ _ _ layer L P rows columns)|].
  split; [reflexivity|]. split; [reflexivity|]. intros l L0 Hl. simpl.
  rewrite lookup_app_l by (rewrite length_removeAll; by eapply lookup_lt_Some).
  by rewrite lookup_removeAll, Hl.
Qed.

(** *** The anchor *)

Lemma scan_settles_on_corner corner cs : forall start,
  (forall c, In c cs -> notBefore corner c) ->
  notBefore corner start ->
  In corner cs \/ samePlace start corner ->
  samePlace (foldl scanStep start cs) corner.
Proof.
  induction cs as [|c cs IH]; intros start Hall Hstart Hor; simpl.
  - destruct Hor as [[]|H]. exact H.
  - assert (notBefore corner c) as Hc by (apply Hall; by left).
    destruct start as [[a bx] by_]. destruct c as [[l cx] cy].
    destruct corner as [[k kx] ky]. unfold notBefore, samePlace in *. simpl in *.
    apply IH.
    + intros c' Hc'. apply Hall. by right.
    + unfold scanStep, replaces. by destruct (_ || _).
    + unfold scanStep, replaces.
      destruct ((cx <? bx)%float || (cy <? by_)%float) eqn:E.
      * destruct Hor as [[Heq|Hin]|[Hx Hy]].
        -- right. injection Heq as -> -> ->. destruct Hc as [Hcx Hcy].
           split; by apply float_le_refl_eq.
        -- by left.
        -- exfalso. apply orb_true_iff in E.
           destruct Hc as [Hcx Hcy]. destruct E as [E|E].
           ++ rewrite (float_eq_le_not_lt _ _ _ Hx Hcx) in E. discriminate E.
           ++ rewrite (float_eq_le_not_lt _ _ _ Hy Hcy) in E. discriminate E.
      * destruct Hor as [[Heq|Hin]|Hsame]; [|by left|by right].
        right. injection Heq as -> -> ->.
        apply orb_false_iff in E as [Ex Ey]. destruct Hstart as [Hsx Hsy]. simpl in *.
        split; by apply float_le_not_lt_eq.
Qed.

Lemma positions_of_selection d ls cs :
  mapM (positionOf d) ls = Some cs ->
  (forall c, In c cs -> exists l, l ∈ ls /\ positionOf d l = Some c) /\
  (forall l, l ∈ ls -> exists c, In c cs /\ positionOf d l = Some c).
Proof.
  intros Hm%mapM_Some. induction Hm as [|l c ls cs Hlc _ [IH1 IH2]].
  - split; [intros c []|intros l Hl; by apply elem_of_nil in Hl].
  - split.
    + intros c' [<-|Hc'].
      * exists l. split; [left|exact Hlc].
      * destruct (IH1 c' Hc') as (l' & Hl' & Hp). exists l'. split; [by right|exact Hp].
    + intros l' [->|Hl']%elem_of_cons.
      * exists c. split; [by left|exact Hlc].
      * destruct (IH2 l' Hl') as (c' & Hc' & Hp). exists c'. split; [by right|exact Hp].
Qed.

(** The scan on a selection that has a corner: the layer it ends on is
    where the corner is. *)
Lemma scan_ends_at_corner d selectedLayers layer corner L Lc :
  anchorOf d selectedLayers = Some layer ->
  store d !! layer = Some L ->
  corner ∈ selectedLayers ->
  store d !! corner = Some Lc ->
  (forall l Ll, l ∈ selectedLayers -> store d !! l = Some Ll ->
     (x (frame Lc) <=? x (frame Ll))%float = true /\
     (y (frame Lc) <=? y (frame Ll))%float = true) ->
  (x (frame L) =? x (frame Lc))%float = true /\
  (y (frame L) =? y (frame Lc))%float = true.
Proof.
  intros Hanchor HL Hcorner HLc Hmin.
  unfold anchorOf in Hanchor.
  destruct selectedLayers as [|layer0 rest]; [discriminate|].
  cbn [first head mbind option_bind] in Hanchor.
  destruct (positionOf d layer0) as [start|] eqn:Hstart; [|discriminate].
  cbn [mbind option_bind] in Hanchor.
  destruct (mapM (positionOf d) (layer0 :: rest)) as [cs|] eqn:Hcs; [|discriminate].
  injection Hanchor as Hanchor.
  destruct (positions_of_selection d _ cs Hcs) as [Hback Hforth].
  assert (forall l c, l ∈ layer0 :: rest -> positionOf d l = Some c ->
            notBefore (corner, x (frame Lc), y (frame Lc)) c) as Hge.
  { intros l c Hl Hp. unfold positionOf in Hp.
    destruct (store d !! l) as [Ll|] eqn:HLl; [|discriminate]. injection Hp as <-.
    exact (Hmin l Ll Hl HLl). }
  assert (samePlace (foldl scanStep start cs) (corner, x (frame Lc), y (frame Lc))) as Hsame.
  { apply scan_settles_on_corner.
    - intros c Hc. destruct (Hback c Hc) as (l & Hl & Hp). by apply (Hge l).
    - apply (Hge layer0); [left|exact Hstart].
    - left. destruct (Hforth corner Hcorner) as (c & Hc & Hp).
      unfold positionOf in Hp. rewrite HLc in Hp. by injection Hp as <-. }
  assert (positionOf d layer = Some (foldl scanStep start cs)) as Hpos.
  { destruct (scan_stays_or_moves start cs) as [Heq|Hin].
    - rewrite Heq in *. unfold positionOf in Hstart.
      destruct (store d !! layer0) as [L0|] eqn:HL0; [|discriminate].
      injection Hstart as <-. simpl in Hanchor. subst layer0.
      unfold positionOf. by rewrite HL0.
    - destruct (Hback _ Hin) as (l & _ & Hp). unfold positionOf in Hp.
      destruct (store d !! l) as [Ll|] eqn:HLl; [|discriminate].
      injection Hp as Hp. rewrite <- Hp in Hanchor. simpl in Hanchor. subst l.
      unfold positionOf. rewrite HLl. simpl. by f_equal. }
  unfold positionOf in Hpos. rewrite HL in Hpos. injection Hpos as Hpos.
  rewrite <- Hpos in Hsame. exact Hsame.
Qed.

(** When one of the selected layers is at once the leftmost and the
    topmost, [createGrid] builds its grid from a layer at that very
    position: the copies it leaves in the document are the copies of a
    selected layer [L] whose x and y are those of the corner, each in
    the parent of [L], row by row from there. *)
Theorem anchor_is_at_the_top_left_corner
    (fuel : nat) (selectedLayers : list nat) (opt : Options) (d : Document)
    (corner : nat) (Lc : Layer) (rows columns : nat) :
  accepted opt = true ->
  countsExactly (rowsCount opt) rows = true ->
  countsExactly (columnsCount opt) columns = true ->
  rows < fuel -> columns < fuel ->
  corner ∈ selectedLayers ->
  store d !! corner = Some Lc ->
  (forall l, l ∈ selectedLayers ->
     exists Ll Pl, store d !! l = Some Ll /\ parentGroup Ll = Some Pl /\
       (x (frame Lc) <=? x (frame Ll))%float = true /\
       (y (frame Lc) <=? y (frame Ll))%float = true) ->
  exists layer L P d',
    layer ∈ selectedLayers /\ store d !! layer = Some L /\ parentGroup L = Some P /\
    (x (frame L) =? x (frame Lc))%float = true /\
    (y (frame L) =? y (frame Lc))%float = true /\
    createGrid fuel selectedLayers opt d =
      (Normal (Some (seq (length (store d)) (rows * columns))), d') /\
    forall i j, i < rows -> j < columns ->
      store d' !! (length (store d) + (i * columns + j)) = Some (gridCopy opt L P i j).
Proof.
  intros Hacc Hrows Hcols Hfr Hfc Hcorner HLc Hmin.
  destruct (anchorOf_defined d selectedLayers) as (layer & Hanchor & Hlayer).
  { intros ->. by apply elem_of_nil in Hcorner. }
  { intros l Hl. destruct (Hmin l Hl) as (Ll & _ & HLl & _). by eapply lookup_lt_Some. }
  destruct (Hmin layer Hlayer) as (L & P & HL & HP & _).
  destruct (scan_ends_at_corner d selectedLayers layer corner L Lc Hanchor HL Hcorner HLc)
    as [Hx Hy].
  { intros l Ll Hl HLl. destruct (Hmin l Hl) as (Ll' & _ & HLl' & _ & Hle).
    rewrite HLl in HLl'. injection HLl' as <-. exact Hle. }
  exists layer, L, P. eexists.
  split; [exact Hlayer|]. split; [exact HL|]. split; [exact HP|].
  split; [exact Hx|]. split; [exact Hy|].
  split; [by apply (createGrid_accepted _ _ _ _ layer L P rows columns)|].
  intros i j Hi Hj. simpl.
  assert (i * columns + j < rows * columns) as Hidx by nia.
  rewrite lookup_app_r by (rewrite length_removeAll; lia).
  rewrite length_removeAll.
  replace (length (store d) + (i * columns + j) - length (store d))
    with (i * columns + j) by lia.
  by apply lookup_gridLayers.
Qed.

(** Without such a corner the layer the scan ends on depends on the
    order of the selection: on three layers on a diagonal it is the
    middle one for one order and the leftmost one for the other. *)
Lemma anchor_without_corner :
  anchorOf diagonalDocument [1; 2; 3] = Some 3 /\
  anchorOf diagonalDocument [3; 2; 1] = Some 1.
Proof. split; vm_compute; reflexivity. Qed.

(** *** Failures after validation *)

(** An anchor outside any group: the call raises at the first
    [addLayers], and by then the document has been changed: the selected
    layers are out of the tree and one stray copy of the anchor has
    been made. *)
Theorem createGrid_orphan_anchor_leaves_changes
    (fuel : nat) (selectedLayers : list nat) (opt : Options) (d : Document)
    (layer : nat) (L : Layer) :
  0 < fuel ->
  accepted opt = true ->
  anchorOf d selectedLayers = Some layer ->
  store d !! layer = Some L ->
  parentGroup L = None ->
  createGrid fuel selectedLayers opt d =
    (TypeError, withStore (removeAll selectedLayers (store d) ++ [withParent None L]) d).
Proof. apply createGrid_orphan_anchor. Qed.

End GridExtras.

Section GridExtrasWitnesses.
Import Doc.

Lemma createGrid_counts_by_the_loop_test_witness :
  exists copies d',
    createGrid 4 [1; 2]
      {| rowsCount := JNum 2.5; rowsMargin := JNum 5;
         columnsCount := JNum 2; columnsMargin := JNum 5 |} exampleDocument
      = (Normal (Some copies), d') /\
    length copies = 3 * 2.
Proof.
  destruct (createGrid_counts_by_the_loop_test 4 [1; 2] exampleDocument 2 layerB 0
              2.5 5 2 5 3 2)
    as (_ & copies & d' & Hrun & Hlen & _);
    [lia | lia | reflexivity | reflexivity | reflexivity | reflexivity | lia | lia
    | reflexivity | reflexivity | reflexivity |].
  exists copies, d'. split; [exact Hrun | exact Hlen].
Defined.

Lemma createGrid_keeps_existing_layers_witness :
  exists copies d',
    createGrid 3 [1; 2] exampleOptions exampleDocument = (Normal (Some copies), d') /\
    selection d' = [2; 1] /\ store d' !! 0 = Some pageLayer.
Proof.
  destruct (createGrid_keeps_existing_layers 3 [1; 2] exampleOptions exampleDocument
              2 layerB 0 2 2)
    as (copies & d' & Hrun & Hsel & _ & Hkeep);
    [reflexivity | reflexivity | reflexivity | lia | lia
    | reflexivity | reflexivity | reflexivity |].
  exists copies, d'. split; [exact Hrun|]. split; [exact Hsel|].
  exact (Hkeep 0 pageLayer eq_refl).
Defined.

Lemma anchor_is_at_the_top_left_corner_witness :
  exists layer L P d',
    store exampleDocument !! layer = Some L /\
    (x (frame L) =? 0)%float = true /\ (y (frame L) =? 0)%float = true /\
    createGrid 3 [1; 2] exampleOptions exampleDocument =
      (Normal (Some [3; 4; 5; 6]), d') /\
    store d' !! 3 = Some (gridCopy exampleOptions L P 0 0).
Proof.
  destruct (anchor_is_at_the_top_left_corner 3 [1; 2] exampleOptions exampleDocument
              2 layerB 2 2)
    as (layer & L & P & d' & _ & HL & _ & Hx & Hy & Hrun & Hcopies);
    [reflexivity | reflexivity | reflexivity | lia | lia
    | right; left | reflexivity | |].
  - intros l [->|[->|[]%elem_of_nil]%elem_of_cons]%elem_of_cons.
    + exists layerA, 0. repeat split.
    + exists layerB, 0. repeat split.
  - exists layer, L, P, d'.
    split; [exact HL|]. split; [exact Hx|]. split; [exact Hy|]. split; [exact Hrun|].
    exact (Hcopies 0 0 ltac:(lia) ltac:(lia)).
Defined.

Lemma createGrid_empty_selection_witness :
  createGrid 3 [] exampleOptions exampleDocument = (TypeError, exampleDocument).
Proof. apply createGrid_empty_selection. reflexivity. Defined.

Lemma createGrid_orphan_anchor_leaves_changes_witness :
  createGrid 3 [0] exampleOptions orphanDocument =
    (TypeError,
     withStore (removeAll [0] (store orphanDocument) ++ [withParent None layerB]) orphanDocument).
Proof.
  apply (createGrid_orphan_anchor_leaves_changes 3 [0] exampleOptions orphanDocument 0
           (withParent None layerB)); [lia | reflexivity | reflexivity | reflexivity | reflexivity].
Defined.

End GridExtrasWitnesses.

(** ** Selection and text layers *)

Section SelectionExtras.
Import Doc.
Local Open Scope doc_scope.

Lemma NoDup_selectEach ls : forall sel, NoDup sel -> NoDup (selectEach ls sel).
Proof.
  unfold selectEach. induction ls as [|l ls IH]; intros sel Hnd; simpl; [exact Hnd|].
  apply IH. case_bool_decide as Hl; [exact Hnd|].
  apply NoDup_app. split; [exact Hnd|]. split; [|apply NoDup_singleton].
  intros k Hk ->%list_elem_of_singleton. contradiction.
Qed.

(** [selectLayers] never fails and touches nothing but the selection;
    afterwards the selection holds the layers given and no others, each
    of them once even when it was given several times. *)
Theorem selectLayers_selects_each_layer_once (layers : list nat) (d : Document) :
  exists d',
    selectLayers layers d = (Normal tt, d') /\
    store d' = store d /\ messages d' = messages d /\
    NoDup (selection d') /\
    forall l, l ∈ selection d' <-> l ∈ layers.
Proof.
  eexists. split; [apply selectLayers_ok|]. simpl. repeat split.
  - apply NoDup_selectEach, NoDup_nil_2.
  - intros H. apply elem_of_selectEach in H as [H|H]; [by apply elem_of_nil in H|exact H].
  - intros H. apply elem_of_selectEach. by right.
Qed.

(** What was selected before a call of [selectLayers] has no influence
    on its outcome: two calls in a row end as the second call alone. *)
Theorem selectLayers_forgets_the_previous_selection (layers1 layers2 : list nat) (d : Document) :
  (selectLayers layers1 ;; selectLayers layers2) d = selectLayers layers2 d.
Proof.
  rewrite (bind_normal _ _ _ _ _ (selectLayers_ok layers1 d)).
  by rewrite !selectLayers_ok.
Qed.

(** Selecting what [createGrid] returns, as the commands do, makes the
    copies the selection, in row-major order, and [getSelectedLayers]
    then hands them back last copy first. *)
Theorem createGrid_then_selectLayers
    (fuel : nat) (selectedLayers : list nat) (opt : Options) (d : Document)
    (layer : nat) (L : Layer) (P : nat) (rows columns : nat) :
  accepted opt = true ->
  countsExactly (rowsCount opt) rows = true ->
  countsExactly (columnsCount opt) columns = true ->
  rows < fuel -> columns < fuel ->
  anchorOf d selectedLayers = Some layer ->
  store d !! layer = Some L ->
  parentGroup L = Some P ->
  exists copies d1 d2,
    createGrid fuel selectedLayers opt d = (Normal (Some copies), d1) /\
    selectLayers copies d1 = (Normal tt, d2) /\
    selection d2 = copies /\
    store d2 = store d1 /\
    getSelectedLayers d2 = (Normal (rev copies), d2).
Proof.
  intros Hacc Hrows Hcols Hfr Hfc Hanchor HL HP.
  eexists _, _, _.
  split; [by apply (createGrid_accepted _ _ _ _ layer L P rows columns)|].
  split; [apply selectLayers_ok|]. simpl.
  assert (selectEach (seq (length (store d)) (rows * columns)) []
          = seq (length (store d)) (rows * columns))
    as Hsel.
  { rewrite selectEach_fresh; [reflexivity|apply NoDup_seq|].
    intros l _. apply not_elem_of_nil. }
  split; [exact Hsel|]. split; [reflexivity|].
  unfold getSelectedLayers. simpl. by rewrite Hsel.
Qed.

Variable fitted : Layer -> Frame.

(** [refreshTextLayer] on a layer of the document refits its frame and
    leaves nothing selected, whatever was selected before: the layer is
    made the whole selection and then deselected. *)
Theorem refreshTextLayer_clears_the_selection (layer : nat) (L : Layer) (d : Document) :
  store d !! layer = Some L ->
  refreshTextLayer fitted layer d =
    (Normal tt,
     {| store := alter (fun L => withFrame (fitted L) L) layer (store d);
        selection := [];
        messages := messages d |}).
Proof.
  intros HL. unfold refreshTextLayer, adjustFrameToFit.
  rewrite (bind_normal _ _ _ _ _ (modifyLayer_ok d layer L _ HL)).
  unfold bind at 1. unfold select_byExtendingSelection at 1. simpl.
  assert (forall d0 flag, store d0 !! layer = Some (withFrame (fitted L) L) ->
            setIsEditingText layer flag d0 = (Normal tt, d0)) as Hedit.
  { intros d0 flag H0. unfold setIsEditingText.
    by rewrite (bind_normal _ _ _ _ _ (getLayer_ok d0 layer _ H0)). }
  erewrite bind_normal; [|apply Hedit; simpl; by rewrite list_lookup_alter_eq, HL].
  erewrite bind_normal; [|apply Hedit; simpl; by rewrite list_lookup_alter_eq, HL].
  unfold select_byExtendingSelection, withSelection, withStore. simpl.
  rewrite filter_cons, decide_False by (intros H; by apply H). reflexivity.
Qed.

End SelectionExtras.

Section SelectionExtrasWitnesses.
Import Doc.

Lemma createGrid_then_selectLayers_witness :
  exists copies d1 d2,
    createGrid 3 [1; 2] exampleOptions exampleDocument = (Normal (Some copies), d1) /\
    selectLayers copies d1 = (Normal tt, d2) /\
    selection d2 = copies.
Proof.
  destruct (createGrid_then_selectLayers 3 [1; 2] exampleOptions exampleDocument 2 layerB 0
              2 2)
    as (copies & d1 & d2 & Hrun & Hsel & Hs & _);
    [reflexivity | reflexivity | reflexivity | lia | lia
    | reflexivity | reflexivity | reflexivity |].
  exists copies, d1, d2. split; [exact Hrun|]. split; [exact Hsel | exact Hs].
Defined.

Lemma refreshTextLayer_clears_the_selection_witness :
  refreshTextLayer (fun L => frame L) 1 exampleDocument =
    (Normal tt,
     {| store := alter (fun L => withFrame (frame L) L) 1 (store exampleDocument);
        selection := [];
        messages := [] |}).
Proof.
  exact (refreshTextLayer_clears_the_selection (fun L => frame L) 1 layerA exampleDocument
           eq_refl).
Defined.

End SelectionExtrasWitnesses.
